(** * Vulkan index buffer (Runtime/RHI/Vulkan/Vulkan_IndexBuffer.cpp)

    A shallow embedding of [RHI_IndexBuffer::_destroy], [_create], [Map] and
    [Unmap].  The four member functions are written in a small state and
    abort monad over a world made of the index buffer object ([this]) and the
    RHI context it talks to.  Pointers and Vulkan handles are natural numbers
    ([N]), with [0] for [nullptr] / [VK_NULL_HANDLE].  A call ends by
    returning, on a failed [SP_ASSERT], or on the dereference of a null
    [m_rhi_device], which [_destroy] and [Unmap] do not guard against. *)

From stdpp Require Import gmap list.
From Stdlib Require Import String NArith Lia.

Local Open Scope N_scope.

(** ** Vulkan flag bits used by the file (values of vulkan_core.h) *)

Definition VK_BUFFER_USAGE_TRANSFER_SRC_BIT : N := 1.
Definition VK_BUFFER_USAGE_TRANSFER_DST_BIT : N := 2.
Definition VK_BUFFER_USAGE_INDEX_BUFFER_BIT : N := 64.
Definition VK_MEMORY_PROPERTY_DEVICE_LOCAL_BIT : N := 1.
Definition VK_MEMORY_PROPERTY_HOST_VISIBLE_BIT : N := 2.
Definition VK_MEMORY_PROPERTY_HOST_COHERENT_BIT : N := 4.

Definition nullptr : N := 0.

(** [if (p)] on a pointer. *)
Definition non_null (p : N) : bool := negb (p =? nullptr).

Inductive RHI_Queue_Type := Graphics | Compute | Copy.

(** ** What the device context is asked to do

    Every call that leaves the file is recorded, in call order. *)

Inductive event :=
| EvQueueWaitAll
| EvCreateBuffer (size usage memory_property_flags data buffer allocation : N)
| EvDestroyBuffer (buffer : N)
| EvMapMemory (allocation pointer : N)
| EvUnmapMemory (allocation : N)
| EvFlushAllocation (allocation offset size : N)
| EvImmediateBegin (queue : RHI_Queue_Type) (cmd_buffer : N)
| EvCmdCopyBuffer (cmd_buffer src dst src_offset dst_offset size : N)
| EvImmediateEnd (queue : RHI_Queue_Type)
| EvSetName (buffer : N) (name : string).

(** ** State *)

(** The RHI context behind [m_rhi_device->GetContextRhi()]: the Vulkan
    device handle, the live buffers of the allocator (buffer handle to its
    allocation), the next unused handle value, the results the driver will
    give to the coming fallible calls ([true] is [VK_SUCCESS]; an exhausted
    list means success), the calls received so far and the error log. *)
Record RHI_Context := mkContext {
  device : N;
  buffers : gmap N N;
  next_handle : positive;
  outcomes : list bool;
  trace : list event;
  log : list string
}.

(** The members of [RHI_IndexBuffer] the file reads or writes. *)
Record RHI_IndexBuffer := mkIndexBuffer {
  m_rhi_device : N;
  m_resource : N;
  m_allocation : N;
  m_mapped : N;
  m_is_mappable : bool;
  m_persistent_mapping : bool;
  m_object_size_gpu : N;
  m_object_name : string
}.

Record World := mkWorld {
  this : RHI_IndexBuffer;
  rhi : RHI_Context
}.

Definition set_m_resource (p : N) (o : RHI_IndexBuffer) : RHI_IndexBuffer :=
  mkIndexBuffer (m_rhi_device o) p (m_allocation o) (m_mapped o)
    (m_is_mappable o) (m_persistent_mapping o) (m_object_size_gpu o) (m_object_name o).

Definition set_m_allocation (p : N) (o : RHI_IndexBuffer) : RHI_IndexBuffer :=
  mkIndexBuffer (m_rhi_device o) (m_resource o) p (m_mapped o)
    (m_is_mappable o) (m_persistent_mapping o) (m_object_size_gpu o) (m_object_name o).

Definition set_m_mapped (p : N) (o : RHI_IndexBuffer) : RHI_IndexBuffer :=
  mkIndexBuffer (m_rhi_device o) (m_resource o) (m_allocation o) p
    (m_is_mappable o) (m_persistent_mapping o) (m_object_size_gpu o) (m_object_name o).

Definition set_m_is_mappable (b : bool) (o : RHI_IndexBuffer) : RHI_IndexBuffer :=
  mkIndexBuffer (m_rhi_device o) (m_resource o) (m_allocation o) (m_mapped o)
    b (m_persistent_mapping o) (m_object_size_gpu o) (m_object_name o).

Definition emit (e : event) (c : RHI_Context) : RHI_Context :=
  mkContext (device c) (buffers c) (next_handle c) (outcomes c) (trace c ++ [e]) (log c).

Definition set_buffers (m : gmap N N) (c : RHI_Context) : RHI_Context :=
  mkContext (device c) m (next_handle c) (outcomes c) (trace c) (log c).

Definition take_handle (c : RHI_Context) : RHI_Context :=
  mkContext (device c) (buffers c) (Pos.succ (next_handle c)) (outcomes c) (trace c) (log c).

Definition next_outcome (c : RHI_Context) : bool :=
  match outcomes c with
  | [] => true
  | b :: _ => b
  end.

Definition take_outcome (c : RHI_Context) : RHI_Context :=
  mkContext (device c) (buffers c) (next_handle c) (tail (outcomes c)) (trace c) (log c).

Definition add_log (msg : string) (c : RHI_Context) : RHI_Context :=
  mkContext (device c) (buffers c) (next_handle c) (outcomes c) (trace c) (log c ++ [msg]).

(** ** The monad: state passing; a call stops on a failed [SP_ASSERT] and
    on the dereference of a null pointer *)

Inductive Res (A : Type) :=
| Ret (a : A)
| AssertionFailed (condition : string)
| NullDereference (pointer : string).
Arguments Ret {A} a.
Arguments AssertionFailed {A} condition.
Arguments NullDereference {A} pointer.

Definition M (A : Type) : Type := World -> Res A * World.

Definition ret {A} (a : A) : M A := fun w => (Ret a, w).

Definition bind {A B} (c : M A) (k : A -> M B) : M B :=
  fun w =>
    match c w with
    | (Ret a, w') => k a w'
    | (AssertionFailed s, w') => (AssertionFailed s, w')
    | (NullDereference s, w') => (NullDereference s, w')
    end.

Notation "x <- c ;; k" := (bind c (fun x => k))
  (at level 100, c at next level, right associativity).
Notation "c ;;; k" := (bind c (fun _ => k))
  (at level 100, right associativity).

Definition get_this : M RHI_IndexBuffer := fun w => (Ret (this w), w).
Definition modify_this (f : RHI_IndexBuffer -> RHI_IndexBuffer) : M unit :=
  fun w => (Ret tt, mkWorld (f (this w)) (rhi w)).
Definition get_rhi : M RHI_Context := fun w => (Ret (rhi w), w).
Definition modify_rhi (f : RHI_Context -> RHI_Context) : M unit :=
  fun w => (Ret tt, mkWorld (this w) (f (rhi w))).

Definition SP_ASSERT (holds : bool) (condition : string) : M unit :=
  fun w => if holds then (Ret tt, w) else (AssertionFailed condition, w).

Definition LOG_ERROR (msg : string) : M unit := modify_rhi (add_log msg).

(** [p->...]: the call goes on only if [p] is not null. *)
Definition dereference (p : N) (pointer : string) : M unit :=
  fun w => if non_null p then (Ret tt, w) else (NullDereference pointer, w).

(** ** The collaborators of the file

    Their bodies are not in this file; each is modelled at its interface. *)

(** Modelled from the spec: [RHI_Device::QueueWaitAll], the blocking barrier
    over every queue. *)
Definition QueueWaitAll : M unit := modify_rhi (emit EvQueueWaitAll).

(** Modelled from the spec: [vulkan_utility::buffer::create], which takes the
    buffer handle by reference and returns the allocation.  On success a new
    buffer and a new allocation are registered with the allocator; on failure
    the handle is left as it was and the null allocation is returned.  The
    handles are opaque: this allocator takes the next two values of a
    counter, one admissible choice.  The numbered properties below are
    stated for every world, whatever its counter and its live buffers are;
    where one needs a granted handle to differ from the live ones it says so
    in a hypothesis ([handles_ok], part of [consistent]), and none needs a
    released value never to be handed out again. *)
Definition buffer_create (buffer size usage memory_property_flags data : N) : M (N * N) :=
  c <- get_rhi ;;
  modify_rhi take_outcome ;;;
  if next_outcome c then
    let b := Npos (next_handle c) in
    let a := Npos (Pos.succ (next_handle c)) in
    modify_rhi (fun c => take_handle (take_handle (set_buffers (<[b:=a]> (buffers c)) c))) ;;;
    modify_rhi (emit (EvCreateBuffer size usage memory_property_flags data b a)) ;;;
    ret (b, a)
  else
    modify_rhi (emit (EvCreateBuffer size usage memory_property_flags data nullptr nullptr)) ;;;
    ret (buffer, nullptr).

(** Modelled from the spec: [vulkan_utility::buffer::destroy], which takes
    the handle by reference: nothing for a null handle, otherwise the buffer
    and its allocation are released and the handle is reset to null. *)
Definition buffer_destroy (buffer : N) : M N :=
  if non_null buffer then
    modify_rhi (fun c => set_buffers (delete buffer (buffers c)) c) ;;;
    modify_rhi (emit (EvDestroyBuffer buffer)) ;;;
    ret nullptr
  else ret buffer.

(** Modelled from the spec: [vmaMapMemory] through [error::check]: the host
    pointer on success (never null), [None] on failure, in which case the
    out parameter is not written. *)
Definition vmaMapMemory (allocation : N) : M (option N) :=
  c <- get_rhi ;;
  modify_rhi take_outcome ;;;
  if next_outcome c then
    let p := Npos (next_handle c) in
    modify_rhi take_handle ;;;
    modify_rhi (emit (EvMapMemory allocation p)) ;;;
    ret (Some p)
  else
    modify_rhi (emit (EvMapMemory allocation nullptr)) ;;;
    ret None.

(** Modelled from the spec: [vmaUnmapMemory]. *)
Definition vmaUnmapMemory (allocation : N) : M unit :=
  modify_rhi (emit (EvUnmapMemory allocation)).

(** Modelled from the spec: [vmaFlushAllocation] through [error::check]. *)
Definition vmaFlushAllocation (allocation offset size : N) : M bool :=
  c <- get_rhi ;;
  modify_rhi take_outcome ;;;
  modify_rhi (emit (EvFlushAllocation allocation offset size)) ;;;
  ret (next_outcome c).

(** Modelled from the spec: [vulkan_utility::command_buffer_immediate::begin]
    and [end]; [end] submits and blocks until the queue has run the
    recording.  Neither has a failure result. *)
Definition command_buffer_immediate_begin (queue : RHI_Queue_Type) : M N :=
  c <- get_rhi ;;
  let cmd := Npos (next_handle c) in
  modify_rhi take_handle ;;;
  modify_rhi (emit (EvImmediateBegin queue cmd)) ;;;
  ret cmd.

Definition command_buffer_immediate_end (queue : RHI_Queue_Type) : M unit :=
  modify_rhi (emit (EvImmediateEnd queue)).

(** [vkCmdCopyBuffer] with one region. *)
Definition vkCmdCopyBuffer (cmd_buffer src dst src_offset dst_offset size : N) : M unit :=
  modify_rhi (emit (EvCmdCopyBuffer cmd_buffer src dst src_offset dst_offset size)).

(** Modelled from the spec: [vulkan_utility::debug::set_name]. *)
Definition debug_set_name (buffer : N) (name : string) : M unit :=
  modify_rhi (emit (EvSetName buffer name)).

(** ** The four member functions *)

Definition _destroy : M unit :=
  (* Wait in case it's still in use by the GPU *)
  o <- get_this ;;
  dereference (m_rhi_device o) "m_rhi_device" ;;;
  QueueWaitAll ;;;
  (* Unmap *)
  o <- get_this ;;
  (if non_null (m_mapped o) then
     dereference (m_rhi_device o) "m_rhi_device" ;;;
     vmaUnmapMemory (m_allocation o) ;;;
     modify_this (set_m_mapped nullptr)
   else ret tt) ;;;
  (* Destroy *)
  o <- get_this ;;
  r <- buffer_destroy (m_resource o) ;;
  modify_this (set_m_resource r).

Definition _create (indices : N) : M bool :=
  o <- get_this ;;
  SP_ASSERT (non_null (m_rhi_device o)) "m_rhi_device != nullptr" ;;;
  c <- get_rhi ;;
  SP_ASSERT (non_null (device c)) "m_rhi_device->GetContextRhi()->device != nullptr" ;;;
  (* Destroy previous buffer *)
  _destroy ;;;
  modify_this (set_m_is_mappable (indices =? nullptr)) ;;;
  o <- get_this ;;
  if m_is_mappable o then
    let flags := N.lor VK_MEMORY_PROPERTY_HOST_VISIBLE_BIT
                   (if negb (m_persistent_mapping o)
                    then VK_MEMORY_PROPERTY_HOST_COHERENT_BIT else 0) in
    r <- buffer_create (m_resource o) (m_object_size_gpu o)
           VK_BUFFER_USAGE_INDEX_BUFFER_BIT flags nullptr ;;
    modify_this (set_m_resource (fst r)) ;;;
    if negb (non_null (snd r)) then ret false
    else
      modify_this (set_m_allocation (snd r)) ;;;
      (* Set debug name *)
      o <- get_this ;;
      debug_set_name (m_resource o) (m_object_name o) ;;;
      ret true
  else
    (* Create staging/source buffer and copy the indices to it *)
    s <- buffer_create nullptr (m_object_size_gpu o)
           VK_BUFFER_USAGE_TRANSFER_SRC_BIT
           (N.lor VK_MEMORY_PROPERTY_HOST_VISIBLE_BIT VK_MEMORY_PROPERTY_HOST_COHERENT_BIT)
           indices ;;
    let staging_buffer := fst s in
    if negb (non_null (snd s)) then ret false
    else
      (* Create destination buffer *)
      r <- buffer_create (m_resource o) (m_object_size_gpu o)
             (N.lor VK_BUFFER_USAGE_TRANSFER_DST_BIT VK_BUFFER_USAGE_INDEX_BUFFER_BIT)
             VK_MEMORY_PROPERTY_DEVICE_LOCAL_BIT nullptr ;;
      modify_this (set_m_resource (fst r)) ;;;
      if negb (non_null (snd r)) then ret false
      else
        (* Copy staging buffer to destination buffer *)
        cmd_buffer <- command_buffer_immediate_begin Copy ;;
        o <- get_this ;;
        vkCmdCopyBuffer cmd_buffer staging_buffer (m_resource o) 0 0 (m_object_size_gpu o) ;;;
        (* Flush and free command buffer *)
        command_buffer_immediate_end Copy ;;;
        (* Destroy staging buffer *)
        buffer_destroy staging_buffer ;;;
        modify_this (set_m_allocation (snd r)) ;;;
        (* Set debug name *)
        o <- get_this ;;
        debug_set_name (m_resource o) (m_object_name o) ;;;
        ret true.

Definition Map : M N :=
  o <- get_this ;;
  if negb (m_is_mappable o) then
    LOG_ERROR "Not mappable, can only be updated via staging" ;;;
    ret nullptr
  else
    SP_ASSERT (non_null (m_rhi_device o)) "m_rhi_device != nullptr" ;;;
    c <- get_rhi ;;
    SP_ASSERT (non_null (device c)) "m_rhi_device->GetContextRhi()->device != nullptr" ;;;
    SP_ASSERT (non_null (m_allocation o)) "m_allocation != nullptr" ;;;
    if negb (non_null (m_mapped o)) then
      r <- vmaMapMemory (m_allocation o) ;;
      match r with
      | Some p =>
          modify_this (set_m_mapped p) ;;;
          o <- get_this ;;
          ret (m_mapped o)
      | None =>
          LOG_ERROR "Failed to map memory" ;;;
          ret nullptr
      end
    else ret (m_mapped o).

Definition Unmap : M bool :=
  o <- get_this ;;
  if negb (m_is_mappable o) then
    LOG_ERROR "Not mappable, can only be updated via staging" ;;;
    ret false
  else if negb (non_null (m_allocation o)) then
    LOG_ERROR "Invalid allocation" ;;;
    ret false
  else if m_persistent_mapping o then
    dereference (m_rhi_device o) "m_rhi_device" ;;;
    ok <- vmaFlushAllocation (m_allocation o) 0 (m_object_size_gpu o) ;;
    if negb ok then
      LOG_ERROR "Failed to flush memory" ;;;
      ret false
    else ret true
  else
    (if non_null (m_mapped o) then
       dereference (m_rhi_device o) "m_rhi_device" ;;;
       vmaUnmapMemory (m_allocation o) ;;;
       modify_this (set_m_mapped nullptr)
     else ret tt) ;;;
    ret true.

(** ** Worlds used as concrete inputs *)

(** Modelled from the spec: an entity on which create was never called has
    null resource, allocation and mapping members; it is attached to a
    device whose allocator holds no buffer yet. *)
Definition never_created (persistent_mapping : bool) (size : N) (driver : list bool) : World :=
  mkWorld
    (mkIndexBuffer 1 nullptr nullptr nullptr false persistent_mapping size "index_buffer")
    (mkContext 1 ∅ 2%positive driver [] []).

(** ** Vocabulary of the properties

    [destroyed], [destroy_events], [Create_case] and [create_events] below
    summarise what the member functions do; they are not part of the
    embedding, and each one is proved against it ([destroy_run],
    [create_run], [create_trace]) before it is used. *)

(** The world a call leaves behind, whatever it returned. *)
Definition after {A} (call : M A) (w : World) : World := snd (call w).

(** [m_rhi_device] and the Vulkan device are there: the first two assertions
    of [_create] and [Map] hold. *)
Definition attached (w : World) : bool :=
  non_null (m_rhi_device (this w)) && non_null (device (rhi w)).

(** The calls [_destroy] makes on an object [o]. *)
Definition destroy_events (o : RHI_IndexBuffer) : list event :=
  EvQueueWaitAll
    :: (if non_null (m_mapped o) then [EvUnmapMemory (m_allocation o)] else [])
    ++ (if non_null (m_resource o) then [EvDestroyBuffer (m_resource o)] else []).

(** The world [_destroy] leaves when [m_rhi_device] is not null. *)
Definition destroyed (w : World) : World :=
  mkWorld
    (set_m_resource nullptr (set_m_mapped nullptr (this w)))
    (mkContext (device (rhi w))
       (if non_null (m_resource (this w))
        then delete (m_resource (this w)) (buffers (rhi w)) else buffers (rhi w))
       (next_handle (rhi w)) (outcomes (rhi w))
       (trace (rhi w) ++ destroy_events (this w)) (log (rhi w))).

(** A call that gives memory back: the end of a mapping or of a buffer. *)
Definition is_release (e : event) : bool :=
  match e with
  | EvUnmapMemory _ | EvDestroyBuffer _ => true
  | _ => false
  end.

(** Scans a sequence of calls for a release made while submitted work may
    still be running.  [in_flight] tells whether work may be running before
    the first call; [QueueWaitAll] drains every queue. *)
Fixpoint released_in_flight (in_flight : bool) (evs : list event) : bool :=
  match evs with
  | [] => false
  | EvQueueWaitAll :: rest => released_in_flight false rest
  | e :: rest => (is_release e && in_flight) || released_in_flight in_flight rest
  end.

(** The calls a client can make on an index buffer. *)
Inductive call :=
| CallCreate (indices : N)
| CallMap
| CallUnmap
| CallDestroy.

Definition run_call (c : call) (w : World) : World :=
  match c with
  | CallCreate indices => after (_create indices) w
  | CallMap => after Map w
  | CallUnmap => after Unmap w
  | CallDestroy => after _destroy w
  end.

Definition run_calls (cs : list call) (w : World) : World :=
  fold_left (fun w c => run_call c w) cs w.

(** A mappable buffer whose first [Map] is refused by the driver and whose
    second [Map] is granted. *)
Definition map_retry_world : World :=
  after (_create nullptr) (never_created false 1024 [true; false; true]).

(** A mappable buffer that was created and then destroyed. *)
Definition created_then_destroyed_world : World :=
  after _destroy (after (_create nullptr) (never_created false 1024 [])).

(** How a call of [Map] can end. *)
Inductive Map_case (w : World) : Prop :=
| Map_case_not_mappable :
    m_is_mappable (this w) = false -> Map_case w
| Map_case_assertion s :
    m_is_mappable (this w) = true -> Map w = (AssertionFailed s, w) -> Map_case w
| Map_case_cached :
    m_is_mappable (this w) = true -> attached w = true ->
    non_null (m_allocation (this w)) = true ->
    non_null (m_mapped (this w)) = true -> Map_case w
| Map_case_refused :
    m_is_mappable (this w) = true -> attached w = true ->
    non_null (m_allocation (this w)) = true ->
    m_mapped (this w) = nullptr -> next_outcome (rhi w) = false -> Map_case w
| Map_case_granted :
    m_is_mappable (this w) = true -> attached w = true ->
    non_null (m_allocation (this w)) = true ->
    m_mapped (this w) = nullptr -> next_outcome (rhi w) = true -> Map_case w.

(** The context after [vulkan_utility::buffer::create] was granted a buffer,
    and after it was refused one. *)
Definition granted_buffer (size usage flags data : N) (c : RHI_Context) : RHI_Context :=
  emit (EvCreateBuffer size usage flags data
          (N.pos (next_handle c)) (N.pos (Pos.succ (next_handle c))))
    (take_handle (take_handle
       (set_buffers (<[N.pos (next_handle c) := N.pos (Pos.succ (next_handle c))]> (buffers c))
          (take_outcome c)))).

Definition refused_buffer (size usage flags data : N) (c : RHI_Context) : RHI_Context :=
  emit (EvCreateBuffer size usage flags data nullptr nullptr) (take_outcome c).

(** The context after the immediate copy of [staging] to [dst] and the
    destruction of [staging]. *)
Definition uploaded (staging dst size : N) (c : RHI_Context) : RHI_Context :=
  emit (EvDestroyBuffer staging)
    (set_buffers (delete staging (buffers c))
       (emit (EvImmediateEnd Copy)
          (emit (EvCmdCopyBuffer (N.pos (next_handle c)) staging dst 0 0 size)
             (emit (EvImmediateBegin Copy (N.pos (next_handle c))) (take_handle c))))).

Definition mappable_flags (o : RHI_IndexBuffer) : N :=
  N.lor VK_MEMORY_PROPERTY_HOST_VISIBLE_BIT
    (if negb (m_persistent_mapping o) then VK_MEMORY_PROPERTY_HOST_COHERENT_BIT else 0).

Definition staging_flags : N :=
  N.lor VK_MEMORY_PROPERTY_HOST_VISIBLE_BIT VK_MEMORY_PROPERTY_HOST_COHERENT_BIT.

Definition destination_usage : N :=
  N.lor VK_BUFFER_USAGE_TRANSFER_DST_BIT VK_BUFFER_USAGE_INDEX_BUFFER_BIT.

(** The ways a call of [_create] on an attached object can end: the result
    and the world left, from the world [w1] that [_destroy] left. *)
Inductive Create_case (indices : N) (w1 : World) : Res bool * World -> Prop :=
| Create_mappable_refused :
    indices = nullptr ->
    next_outcome (rhi w1) = false ->
    Create_case indices w1
      (Ret false,
       mkWorld (set_m_is_mappable true (this w1))
         (refused_buffer (m_object_size_gpu (this w1)) VK_BUFFER_USAGE_INDEX_BUFFER_BIT
            (mappable_flags (this w1)) nullptr (rhi w1)))
| Create_mappable_granted :
    indices = nullptr ->
    next_outcome (rhi w1) = true ->
    Create_case indices w1
      (Ret true,
       mkWorld
         (set_m_allocation (N.pos (Pos.succ (next_handle (rhi w1))))
            (set_m_resource (N.pos (next_handle (rhi w1)))
               (set_m_is_mappable true (this w1))))
         (emit (EvSetName (N.pos (next_handle (rhi w1))) (m_object_name (this w1)))
            (granted_buffer (m_object_size_gpu (this w1)) VK_BUFFER_USAGE_INDEX_BUFFER_BIT
               (mappable_flags (this w1)) nullptr (rhi w1))))
| Create_staging_refused :
    indices <> nullptr ->
    next_outcome (rhi w1) = false ->
    Create_case indices w1
      (Ret false,
       mkWorld (set_m_is_mappable false (this w1))
         (refused_buffer (m_object_size_gpu (this w1)) VK_BUFFER_USAGE_TRANSFER_SRC_BIT
            staging_flags indices (rhi w1)))
| Create_destination_refused :
    indices <> nullptr ->
    next_outcome (rhi w1) = true ->
    next_outcome (take_outcome (rhi w1)) = false ->
    Create_case indices w1
      (Ret false,
       mkWorld (set_m_is_mappable false (this w1))
         (refused_buffer (m_object_size_gpu (this w1)) destination_usage
            VK_MEMORY_PROPERTY_DEVICE_LOCAL_BIT nullptr
            (granted_buffer (m_object_size_gpu (this w1)) VK_BUFFER_USAGE_TRANSFER_SRC_BIT
               staging_flags indices (rhi w1))))
| Create_staged :
    indices <> nullptr ->
    next_outcome (rhi w1) = true ->
    next_outcome (take_outcome (rhi w1)) = true ->
    Create_case indices w1
      (Ret true,
       mkWorld
         (set_m_allocation (N.pos (Pos.succ (Pos.succ (Pos.succ (next_handle (rhi w1))))))
            (set_m_resource (N.pos (Pos.succ (Pos.succ (next_handle (rhi w1)))))
               (set_m_is_mappable false (this w1))))
         (emit (EvSetName (N.pos (Pos.succ (Pos.succ (next_handle (rhi w1)))))
                  (m_object_name (this w1)))
            (uploaded (N.pos (next_handle (rhi w1)))
               (N.pos (Pos.succ (Pos.succ (next_handle (rhi w1)))))
               (m_object_size_gpu (this w1))
               (granted_buffer (m_object_size_gpu (this w1)) destination_usage
                  VK_MEMORY_PROPERTY_DEVICE_LOCAL_BIT nullptr
                  (granted_buffer (m_object_size_gpu (this w1)) VK_BUFFER_USAGE_TRANSFER_SRC_BIT
                     staging_flags indices (rhi w1)))))).

(** The calls [_create] makes after [_destroy] has left the world [w1]. *)
Definition create_events (indices : N) (w1 : World) : list event :=
  let size := m_object_size_gpu (this w1) in
  let h := next_handle (rhi w1) in
  if indices =? nullptr then
    if next_outcome (rhi w1) then
      [EvCreateBuffer size VK_BUFFER_USAGE_INDEX_BUFFER_BIT (mappable_flags (this w1)) nullptr
         (N.pos h) (N.pos (Pos.succ h));
       EvSetName (N.pos h) (m_object_name (this w1))]
    else
      [EvCreateBuffer size VK_BUFFER_USAGE_INDEX_BUFFER_BIT (mappable_flags (this w1)) nullptr
         nullptr nullptr]
  else if next_outcome (rhi w1) then
    EvCreateBuffer size VK_BUFFER_USAGE_TRANSFER_SRC_BIT staging_flags indices
      (N.pos h) (N.pos (Pos.succ h))
    :: (if next_outcome (take_outcome (rhi w1)) then
          [EvCreateBuffer size destination_usage VK_MEMORY_PROPERTY_DEVICE_LOCAL_BIT nullptr
             (N.pos (Pos.succ (Pos.succ h))) (N.pos (Pos.succ (Pos.succ (Pos.succ h))));
           EvImmediateBegin Copy (N.pos (Pos.succ (Pos.succ (Pos.succ (Pos.succ h)))));
           EvCmdCopyBuffer (N.pos (Pos.succ (Pos.succ (Pos.succ (Pos.succ h)))))
             (N.pos h) (N.pos (Pos.succ (Pos.succ h))) 0 0 size;
           EvImmediateEnd Copy;
           EvDestroyBuffer (N.pos h);
           EvSetName (N.pos (Pos.succ (Pos.succ h))) (m_object_name (this w1))]
        else
          [EvCreateBuffer size destination_usage VK_MEMORY_PROPERTY_DEVICE_LOCAL_BIT nullptr
             nullptr nullptr])
  else
    [EvCreateBuffer size VK_BUFFER_USAGE_TRANSFER_SRC_BIT staging_flags indices
       nullptr nullptr].

(** The handles given out so far are below [next_handle] and no allocation
    backs two buffers. *)
Definition handles_ok (bs : gmap N N) (h : positive) : Prop :=
  (forall b a, bs !! b = Some a -> b < N.pos h /\ a < N.pos h)
  /\ (forall b1 b2 a, bs !! b1 = Some a -> bs !! b2 = Some a -> b1 = b2).

(** [a] is the allocation of a buffer the allocator still holds. *)
Definition live_allocation (c : RHI_Context) (a : N) : Prop :=
  exists b, buffers c !! b = Some a.

(** The object and the allocator agree: a resource handle that is not null
    names a live buffer backed by [m_allocation]; with a null resource
    handle, [m_allocation] backs no live buffer. *)
Definition consistent (w : World) : Prop :=
  handles_ok (buffers (rhi w)) (next_handle (rhi w))
  /\ m_allocation (this w) < N.pos (next_handle (rhi w))
  /\ (if non_null (m_resource (this w))
      then buffers (rhi w) !! m_resource (this w) = Some (m_allocation (this w))
      else ~ live_allocation (rhi w) (m_allocation (this w))).

(** ** Vocabulary of the further properties *)

(** How a call of [Unmap] can end. *)
Inductive Unmap_case (w : World) : Prop :=
| Unmap_case_not_mappable :
    m_is_mappable (this w) = false -> Unmap_case w
| Unmap_case_no_allocation :
    m_is_mappable (this w) = true -> m_allocation (this w) = nullptr -> Unmap_case w
| Unmap_case_null_device :
    m_rhi_device (this w) = nullptr ->
    Unmap w = (NullDereference "m_rhi_device", w) -> Unmap_case w
| Unmap_case_flush :
    m_is_mappable (this w) = true -> non_null (m_allocation (this w)) = true ->
    m_persistent_mapping (this w) = true ->
    non_null (m_rhi_device (this w)) = true -> Unmap_case w
| Unmap_case_release :
    m_is_mappable (this w) = true -> non_null (m_allocation (this w)) = true ->
    m_persistent_mapping (this w) = false ->
    non_null (m_mapped (this w)) = true ->
    non_null (m_rhi_device (this w)) = true -> Unmap_case w
| Unmap_case_nothing_mapped :
    m_is_mappable (this w) = true -> non_null (m_allocation (this w)) = true ->
    m_persistent_mapping (this w) = false ->
    m_mapped (this w) = nullptr -> Unmap_case w.

(** The members and the device handle that no member function writes. *)
Definition same_configuration (w w' : World) : Prop :=
  m_rhi_device (this w') = m_rhi_device (this w)
  /\ m_persistent_mapping (this w') = m_persistent_mapping (this w)
  /\ m_object_size_gpu (this w') = m_object_size_gpu (this w)
  /\ m_object_name (this w') = m_object_name (this w)
  /\ device (rhi w') = device (rhi w).

(** A resource handle that is not null names a live buffer backed by
    [m_allocation]. *)
Definition resource_live (w : World) : Prop :=
  m_resource (this w) <> nullptr ->
  buffers (rhi w) !! m_resource (this w) = Some (m_allocation (this w)).

(** A mapping is recorded only on a mappable object with an allocation. *)
Definition mapping_sane (w : World) : bool :=
  implb (non_null (m_mapped (this w)))
    (m_is_mappable (this w) && non_null (m_allocation (this w))).

(** The driver's view of the host mapping, read off the calls it received:
    [Some None] when nothing is mapped, [Some (Some a)] when allocation [a]
    is mapped, [None] once a call broke the discipline (a second mapping
    while one is active, an unmap of what is not mapped, a buffer destroyed
    while a mapping is active). *)
Definition pairing_step (st : option (option N)) (e : event) : option (option N) :=
  match st with
  | None => None
  | Some cur =>
      match e with
      | EvMapMemory a p =>
          if non_null p then
            match cur with
            | None => Some (Some a)
            | Some _ => None
            end
          else Some cur
      | EvUnmapMemory a =>
          match cur with
          | Some a' => if a' =? a then Some None else None
          | None => None
          end
      | EvDestroyBuffer _ =>
          match cur with
          | None => Some None
          | Some _ => None
          end
      | _ => Some cur
      end
  end.

Definition pairing (evs : list event) : option (option N) :=
  fold_left pairing_step evs (Some None).

(** [m_mapped] tells what the driver has mapped. *)
Definition mapping_tracked (w : World) : Prop :=
  pairing (trace (rhi w))
  = Some (if non_null (m_mapped (this w)) then Some (m_allocation (this w)) else None).

(** The driver refuses nothing any more and the allocator holds the buffer
    of the object and no other. *)
Definition sole_owner (w : World) : Prop :=
  outcomes (rhi w) = []
  /\ buffers (rhi w)
     = (if non_null (m_resource (this w))
        then {[m_resource (this w) := m_allocation (this w)]} else ∅).

(** * Properties *)

Ltac unfold_monad :=
  cbv beta iota delta
    [bind ret get_this get_rhi modify_this modify_rhi SP_ASSERT LOG_ERROR
     dereference QueueWaitAll buffer_create buffer_destroy vmaMapMemory vmaUnmapMemory
     vmaFlushAllocation command_buffer_immediate_begin
     command_buffer_immediate_end vkCmdCopyBuffer debug_set_name after
     set_m_resource set_m_allocation set_m_mapped set_m_is_mappable
     emit set_buffers take_handle take_outcome add_log negb];
  cbn [this rhi m_rhi_device m_resource m_allocation m_mapped m_is_mappable
       m_persistent_mapping m_object_size_gpu m_object_name
       device buffers next_handle outcomes trace log fst snd].

Ltac use_tests :=
  repeat match goal with
    | H : ?b = true |- context [if ?b then _ else _] => rewrite H
    | H : ?b = false |- context [if ?b then _ else _] => rewrite H
    end.

Ltac run := repeat (progress (unfold_monad; use_tests)).

Ltac open_world w :=
  destruct w as [[? ? ? ? ? ? ? ?] [? ? ? ? ? ?]];
  cbn [this rhi m_rhi_device m_resource m_allocation m_mapped m_is_mappable
       m_persistent_mapping m_object_size_gpu m_object_name
       device buffers next_handle outcomes trace log] in *;
  subst.

(** Full evaluation, for worlds given by their fields. *)
Ltac eval_world :=
  cbv beta iota delta
    [bind ret get_this get_rhi modify_this modify_rhi SP_ASSERT LOG_ERROR
     dereference QueueWaitAll buffer_create buffer_destroy vmaMapMemory vmaUnmapMemory
     vmaFlushAllocation command_buffer_immediate_begin
     command_buffer_immediate_end vkCmdCopyBuffer debug_set_name after
     granted_buffer refused_buffer uploaded mappable_flags staging_flags
     destination_usage next_outcome take_outcome take_handle set_buffers emit add_log
     set_m_resource set_m_allocation set_m_mapped set_m_is_mappable negb
     this rhi m_rhi_device m_resource m_allocation m_mapped m_is_mappable
     m_persistent_mapping m_object_size_gpu m_object_name
     device buffers next_handle outcomes trace log fst snd] in *.

Lemma non_null_false p : non_null p = false -> p = nullptr.
Proof. unfold non_null. destruct (N.eqb_spec p nullptr); [auto | discriminate]. Qed.

Lemma non_null_true p : non_null p = true -> p <> nullptr.
Proof. unfold non_null. destruct (N.eqb_spec p nullptr); [discriminate | auto]. Qed.

Lemma non_null_nullptr : non_null nullptr = false.
Proof. reflexivity. Qed.

Lemma non_null_pos p : non_null (N.pos p) = true.
Proof. reflexivity. Qed.

Lemma attached_true w :
  attached w = true ->
  non_null (m_rhi_device (this w)) = true /\ non_null (device (rhi w)) = true.
Proof. unfold attached. intros H. apply andb_prop in H. exact H. Qed.

(** *** [_destroy] *)

Lemma attached_device w :
  attached w = true -> non_null (m_rhi_device (this w)) = true.
Proof. intros H. now apply attached_true in H. Qed.

Lemma destroy_run w :
  non_null (m_rhi_device (this w)) = true -> _destroy w = (Ret tt, destroyed w).
Proof.
  destruct w as [[dv r a mp im pm sz nm] [d bs nh os tr lg]].
  cbn [this m_rhi_device]. intros Hd.
  unfold _destroy, destroyed, destroy_events. run.
  destruct (non_null mp) eqn:Hmp; run;
    destruct (non_null r) eqn:Hr; run;
    rewrite <- ?app_assoc; cbn [app];
    try (apply non_null_false in Hr; subst r);
    try (apply non_null_false in Hmp; subst mp); reflexivity.
Qed.

Lemma destroy_null_device w :
  m_rhi_device (this w) = nullptr -> _destroy w = (NullDereference "m_rhi_device", w).
Proof. intros Hd. unfold _destroy. run. rewrite Hd, non_null_nullptr. reflexivity. Qed.

Lemma after_destroy w :
  non_null (m_rhi_device (this w)) = true -> after _destroy w = destroyed w.
Proof. intros Hd. unfold after. rewrite destroy_run by assumption. reflexivity. Qed.

Lemma after_destroy_cases w :
  (non_null (m_rhi_device (this w)) = true /\ after _destroy w = destroyed w)
  \/ (m_rhi_device (this w) = nullptr /\ after _destroy w = w).
Proof.
  destruct (non_null (m_rhi_device (this w))) eqn:Hd.
  - left. split; [reflexivity | now apply after_destroy].
  - right. apply non_null_false in Hd. split; [exact Hd |].
    unfold after. rewrite destroy_null_device by assumption. reflexivity.
Qed.

Lemma after_destroy_attached w :
  attached w = true -> after _destroy w = destroyed w.
Proof. intros Ha. now apply after_destroy, attached_device. Qed.

Lemma destroyed_twice w :
  destroyed (destroyed w) = mkWorld (this (destroyed w)) (emit EvQueueWaitAll (rhi (destroyed w))).
Proof.
  destruct w as [[dv r a mp im pm sz nm] [d bs nh os tr lg]].
  unfold destroyed, destroy_events. unfold_monad.
  rewrite non_null_nullptr. cbn [app]. reflexivity.
Qed.

Lemma destroyed_nothing w :
  m_resource (this w) = nullptr -> m_mapped (this w) = nullptr ->
  destroyed w = mkWorld (this w) (emit EvQueueWaitAll (rhi w)).
Proof.
  destruct w as [[dv r a mp im pm sz nm] [d bs nh os tr lg]].
  unfold destroyed, destroy_events. unfold_monad. intros -> ->.
  rewrite non_null_nullptr. cbn [app]. reflexivity.
Qed.

Lemma destroy_events_release o :
  exists rest,
    destroy_events o = EvQueueWaitAll :: rest /\
    forallb is_release rest = true.
Proof.
  unfold destroy_events. eexists. split; [reflexivity |].
  destruct (non_null (m_mapped o)), (non_null (m_resource o)); reflexivity.
Qed.

Lemma released_after_wait rest :
  forallb is_release rest = true ->
  forall in_flight, released_in_flight in_flight (EvQueueWaitAll :: rest) = false.
Proof.
  intros Hrel in_flight. cbn [released_in_flight]. clear in_flight.
  induction rest as [|e rest IH]; [reflexivity |].
  cbn [forallb] in Hrel. apply andb_prop in Hrel as [He Hrest].
  destruct e; try discriminate He; cbn [released_in_flight is_release];
    rewrite IH by assumption; reflexivity.
Qed.

(** C3.  Every execution of [_destroy] on an attached object first waits for
    all submitted work on every queue; only after that wait does it end an
    active mapping and free the buffer with its allocation, and it makes no
    other call, so whatever work was in flight when it was called, no memory
    is given back while the device may still use it. *)
Theorem destroy_waits_before_release (w : World) :
  attached w = true ->
  exists rest,
    _destroy w = (Ret tt, after _destroy w)
    /\ trace (rhi (after _destroy w)) = trace (rhi w) ++ EvQueueWaitAll :: rest
    /\ rest = (if non_null (m_mapped (this w))
               then [EvUnmapMemory (m_allocation (this w))] else [])
              ++ (if non_null (m_resource (this w))
                  then [EvDestroyBuffer (m_resource (this w))] else [])
    /\ forallb is_release rest = true
    /\ (forall in_flight, released_in_flight in_flight (EvQueueWaitAll :: rest) = false).
Proof.
  intros Ha. apply attached_device in Ha.
  destruct (destroy_events_release (this w)) as [rest [Hev Hrel]].
  exists rest. rewrite after_destroy, destroy_run by assumption.
  split; [reflexivity |]. split; [| split; [| split]].
  - unfold destroyed. cbn [rhi trace]. rewrite Hev. reflexivity.
  - unfold destroy_events in Hev. injection Hev as <-. reflexivity.
  - exact Hrel.
  - apply released_after_wait, Hrel.
Qed.

Lemma destroy_waits_before_release_witness :
  exists rest,
    trace (rhi (after _destroy (after Map (after (_create nullptr) (never_created false 1024 [])))))
    = trace (rhi (after Map (after (_create nullptr) (never_created false 1024 []))))
        ++ EvQueueWaitAll :: rest
    /\ rest = [EvUnmapMemory 3; EvDestroyBuffer 2].
Proof.
  destruct (destroy_waits_before_release
              (after Map (after (_create nullptr) (never_created false 1024 []))))
    as (rest & _ & Htrace & Hrest & _).
  - vm_compute. reflexivity.
  - exists rest. split; [exact Htrace |]. rewrite Hrest. vm_compute. reflexivity.
Defined.

(** *** [Map] *)

Lemma Map_not_mappable w :
  m_is_mappable (this w) = false ->
  Map w = (Ret nullptr,
           mkWorld (this w) (add_log "Not mappable, can only be updated via staging" (rhi w))).
Proof. intros H. open_world w. unfold Map. run. reflexivity. Qed.

Lemma Map_no_allocation w :
  m_is_mappable (this w) = true -> attached w = true ->
  m_allocation (this w) = nullptr ->
  Map w = (AssertionFailed "m_allocation != nullptr", w).
Proof.
  intros Hm Ha Hal. apply attached_true in Ha as [Hd Hv]. open_world w.
  unfold Map. run. rewrite non_null_nullptr. reflexivity.
Qed.

Lemma Map_cached w :
  m_is_mappable (this w) = true -> attached w = true ->
  non_null (m_allocation (this w)) = true ->
  non_null (m_mapped (this w)) = true ->
  Map w = (Ret (m_mapped (this w)), w).
Proof.
  intros Hm Ha Hal Hmp. apply attached_true in Ha as [Hd Hv]. open_world w.
  unfold Map. run. reflexivity.
Qed.

Lemma Map_refused w :
  m_is_mappable (this w) = true -> attached w = true ->
  non_null (m_allocation (this w)) = true ->
  m_mapped (this w) = nullptr ->
  next_outcome (rhi w) = false ->
  Map w = (Ret nullptr,
           mkWorld (this w)
             (add_log "Failed to map memory"
                (emit (EvMapMemory (m_allocation (this w)) nullptr) (take_outcome (rhi w))))).
Proof.
  intros Hm Ha Hal Hmp Ho. apply attached_true in Ha as [Hd Hv]. open_world w.
  unfold Map. run. rewrite non_null_nullptr. run. reflexivity.
Qed.

Lemma Map_granted w :
  m_is_mappable (this w) = true -> attached w = true ->
  non_null (m_allocation (this w)) = true ->
  m_mapped (this w) = nullptr ->
  next_outcome (rhi w) = true ->
  Map w = (Ret (N.pos (next_handle (rhi w))),
           mkWorld (set_m_mapped (N.pos (next_handle (rhi w))) (this w))
             (emit (EvMapMemory (m_allocation (this w)) (N.pos (next_handle (rhi w))))
                (take_handle (take_outcome (rhi w))))).
Proof.
  intros Hm Ha Hal Hmp Ho. apply attached_true in Ha as [Hd Hv]. open_world w.
  unfold Map. run. rewrite non_null_nullptr. run. reflexivity.
Qed.

Lemma Map_cases w : Map_case w.
Proof.
  destruct (m_is_mappable (this w)) eqn:Hm; [| now apply Map_case_not_mappable].
  destruct (non_null (m_rhi_device (this w))) eqn:Hd.
  2:{ apply Map_case_assertion with (s := "m_rhi_device != nullptr"%string); [assumption |].
      unfold Map. run. reflexivity. }
  destruct (non_null (device (rhi w))) eqn:Hv.
  2:{ apply Map_case_assertion
        with (s := "m_rhi_device->GetContextRhi()->device != nullptr"%string); [assumption |].
      unfold Map. run. reflexivity. }
  assert (Ha : attached w = true) by (unfold attached; rewrite Hd, Hv; reflexivity).
  destruct (non_null (m_allocation (this w))) eqn:Hal.
  2:{ apply Map_case_assertion with (s := "m_allocation != nullptr"%string); [assumption |].
      apply Map_no_allocation; auto using non_null_false. }
  destruct (non_null (m_mapped (this w))) eqn:Hmp; [now apply Map_case_cached |].
  apply non_null_false in Hmp.
  destruct (next_outcome (rhi w)) eqn:Ho;
    [now apply Map_case_granted | now apply Map_case_refused].
Qed.

(** C6.  A [Map] call that fails returns null, logs an error and leaves the
    index buffer as it was: on a buffer that is not mappable nothing but the
    log changes; when the driver refuses the first mapping, null is returned
    and [m_mapped] stays null; and these are the only ways for [Map] to
    return null. *)
Theorem Map_failure_leaves_state (w : World) :
  (m_is_mappable (this w) = false ->
   Map w = (Ret nullptr,
            mkWorld (this w)
              (add_log "Not mappable, can only be updated via staging" (rhi w))))
  /\ (m_is_mappable (this w) = true -> attached w = true ->
      non_null (m_allocation (this w)) = true ->
      m_mapped (this w) = nullptr -> next_outcome (rhi w) = false ->
      Map w = (Ret nullptr,
               mkWorld (this w)
                 (add_log "Failed to map memory"
                    (emit (EvMapMemory (m_allocation (this w)) nullptr)
                       (take_outcome (rhi w)))))
      /\ m_mapped (this (after Map w)) = nullptr)
  /\ (forall w', Map w = (Ret nullptr, w') ->
      this w' = this w /\
      buffers (rhi w') = buffers (rhi w) /\
      exists msg, log (rhi w') = log (rhi w) ++ [msg]).
Proof.
  split; [apply Map_not_mappable |]. split.
  - intros Hm Ha Hal Hmp Ho. split; [now apply Map_refused |].
    unfold after. rewrite Map_refused by assumption. exact Hmp.
  - intros w' Hrun.
    destruct (Map_cases w) as [Hm | s Hm Hs | Hm Ha Hal Hmp | Hm Ha Hal Hmp Ho | Hm Ha Hal Hmp Ho].
    + rewrite Map_not_mappable in Hrun by assumption.
      injection Hrun as <-. cbn. eauto.
    + rewrite Hs in Hrun. discriminate Hrun.
    + rewrite Map_cached in Hrun by assumption.
      injection Hrun as Hp _. rewrite Hp in Hmp. discriminate Hmp.
    + rewrite Map_refused in Hrun by assumption.
      injection Hrun as <-. cbn. eauto.
    + rewrite Map_granted in Hrun by assumption. discriminate Hrun.
Qed.

Lemma Map_failure_leaves_state_witness :
  Map (after (_create 7) (never_created false 2048 []))
  = (Ret nullptr,
     mkWorld (this (after (_create 7) (never_created false 2048 [])))
       (add_log "Not mappable, can only be updated via staging"
          (rhi (after (_create 7) (never_created false 2048 [])))))
  /\ m_mapped (this (after Map map_retry_world)) = nullptr
  /\ this (after Map map_retry_world) = this map_retry_world.
Proof.
  split; [| split].
  - apply (proj1 (Map_failure_leaves_state (after (_create 7) (never_created false 2048 [])))).
    vm_compute. reflexivity.
  - apply (proj1 (proj2 (Map_failure_leaves_state map_retry_world)));
      vm_compute; reflexivity.
  - apply (proj2 (proj2 (Map_failure_leaves_state map_retry_world))).
    vm_compute. reflexivity.
Defined.

(** C7 as stated does not hold: after a refused first [Map] the second call
    asks the driver again and returns another pointer. *)
Lemma Map_twice_differs :
  m_is_mappable (this map_retry_world) = true
  /\ fst (Map map_retry_world) = Ret nullptr
  /\ fst (Map (after Map map_retry_world)) = Ret 4
  /\ trace (rhi (after Map (after Map map_retry_world)))
     = trace (rhi (after Map map_retry_world)) ++ [EvMapMemory 3 4].
Proof. vm_compute. repeat split. Qed.

(** C7, amended.  On a mappable buffer, once a [Map] call has returned a
    pointer that is not null, the next [Map] call returns that same pointer
    from [m_mapped] and asks the driver nothing: the world is unchanged. *)
Theorem Map_twice_same_pointer (w w1 : World) (p : N) :
  m_is_mappable (this w) = true ->
  Map w = (Ret p, w1) ->
  p <> nullptr ->
  Map w1 = (Ret p, w1).
Proof.
  intros Hmappable Hrun Hp.
  destruct (Map_cases w) as [Hm | s Hm Hs | Hm Ha Hal Hmp | Hm Ha Hal Hmp Ho | Hm Ha Hal Hmp Ho].
  - congruence.
  - rewrite Hs in Hrun. discriminate Hrun.
  - rewrite Map_cached in Hrun by assumption.
    injection Hrun as <- <-. now apply Map_cached.
  - rewrite Map_refused in Hrun by assumption. injection Hrun as <- _. now contradiction Hp.
  - rewrite Map_granted in Hrun by assumption. injection Hrun as <- <-.
    apply attached_true in Ha as [Hd Hv]. open_world w.
    apply Map_cached; unfold attached; cbn [this rhi m_is_mappable m_rhi_device
      device m_allocation m_mapped set_m_mapped emit take_handle take_outcome];
      rewrite ?Hd, ?Hv; auto.
Qed.

Lemma Map_twice_same_pointer_witness :
  Map (after Map (after (_create nullptr) (never_created false 1024 [])))
  = (Ret 4, after Map (after (_create nullptr) (never_created false 1024 []))).
Proof.
  apply (Map_twice_same_pointer (after (_create nullptr) (never_created false 1024 []))).
  - vm_compute. reflexivity.
  - vm_compute. reflexivity.
  - discriminate.
Defined.

(** *** [Unmap] *)

Lemma Unmap_not_mappable w :
  m_is_mappable (this w) = false ->
  Unmap w = (Ret false,
             mkWorld (this w) (add_log "Not mappable, can only be updated via staging" (rhi w))).
Proof. intros H. open_world w. unfold Unmap. run. reflexivity. Qed.

Lemma Unmap_no_allocation w :
  m_is_mappable (this w) = true ->
  m_allocation (this w) = nullptr ->
  Unmap w = (Ret false, mkWorld (this w) (add_log "Invalid allocation" (rhi w))).
Proof.
  intros Hm Hal. open_world w. unfold Unmap. run.
  rewrite non_null_nullptr. run. reflexivity.
Qed.

Lemma Unmap_flush w :
  m_is_mappable (this w) = true ->
  non_null (m_allocation (this w)) = true ->
  m_persistent_mapping (this w) = true ->
  non_null (m_rhi_device (this w)) = true ->
  Unmap w =
    (Ret (next_outcome (rhi w)),
     mkWorld (this w)
       ((if next_outcome (rhi w) then id else add_log "Failed to flush memory")
          (emit (EvFlushAllocation (m_allocation (this w)) 0 (m_object_size_gpu (this w)))
             (take_outcome (rhi w))))).
Proof.
  intros Hm Hal Hp Hd. open_world w. unfold Unmap. run.
  match goal with |- context [next_outcome ?c] => destruct (next_outcome c) end;
    run; reflexivity.
Qed.

Lemma Unmap_release w :
  m_is_mappable (this w) = true ->
  non_null (m_allocation (this w)) = true ->
  m_persistent_mapping (this w) = false ->
  non_null (m_mapped (this w)) = true ->
  non_null (m_rhi_device (this w)) = true ->
  Unmap w = (Ret true,
             mkWorld (set_m_mapped nullptr (this w))
               (emit (EvUnmapMemory (m_allocation (this w))) (rhi w))).
Proof. intros Hm Hal Hp Hmp Hd. open_world w. unfold Unmap. run. reflexivity. Qed.

Lemma Unmap_nothing_mapped w :
  m_is_mappable (this w) = true ->
  non_null (m_allocation (this w)) = true ->
  m_persistent_mapping (this w) = false ->
  m_mapped (this w) = nullptr ->
  Unmap w = (Ret true, w).
Proof.
  intros Hm Hal Hp Hmp. open_world w. unfold Unmap. run.
  rewrite non_null_nullptr. run. reflexivity.
Qed.

Lemma Unmap_flush_null_device w :
  m_is_mappable (this w) = true ->
  non_null (m_allocation (this w)) = true ->
  m_persistent_mapping (this w) = true ->
  m_rhi_device (this w) = nullptr ->
  Unmap w = (NullDereference "m_rhi_device", w).
Proof.
  intros Hm Hal Hp Hd. open_world w. unfold Unmap. run.
  rewrite non_null_nullptr. reflexivity.
Qed.

Lemma Unmap_release_null_device w :
  m_is_mappable (this w) = true ->
  non_null (m_allocation (this w)) = true ->
  m_persistent_mapping (this w) = false ->
  non_null (m_mapped (this w)) = true ->
  m_rhi_device (this w) = nullptr ->
  Unmap w = (NullDereference "m_rhi_device", w).
Proof.
  intros Hm Hal Hp Hmp Hd. open_world w. unfold Unmap. run.
  rewrite non_null_nullptr. reflexivity.
Qed.

Lemma not_null_non_null p : p <> nullptr -> non_null p = true.
Proof.
  intros Hp. destruct (non_null p) eqn:E; [reflexivity |].
  apply non_null_false in E. contradiction.
Qed.

(** C8.  On an attached mappable buffer with persistent mapping and an
    allocation, [Unmap] leaves the object as it is ([m_mapped] included) and
    does not call [vmaUnmapMemory]: its only call is a flush of the
    allocation from offset 0 over [m_object_size_gpu] bytes.  It returns
    [true] when the flush succeeds; when it fails it logs the failure and
    returns [false]. *)
Theorem Unmap_persistent_flushes (w : World) :
  attached w = true ->
  m_is_mappable (this w) = true ->
  m_persistent_mapping (this w) = true ->
  m_allocation (this w) <> nullptr ->
  exists ok,
    Unmap w = (Ret ok, after Unmap w)
    /\ this (after Unmap w) = this w
    /\ m_mapped (this (after Unmap w)) = m_mapped (this w)
    /\ trace (rhi (after Unmap w))
       = trace (rhi w)
           ++ [EvFlushAllocation (m_allocation (this w)) 0 (m_object_size_gpu (this w))]
    /\ buffers (rhi (after Unmap w)) = buffers (rhi w)
    /\ ok = next_outcome (rhi w)
    /\ log (rhi (after Unmap w))
       = (if ok then log (rhi w) else log (rhi w) ++ ["Failed to flush memory"%string]).
Proof.
  intros Ha Hm Hp Hal. apply attached_device in Ha.
  apply not_null_non_null in Hal.
  exists (next_outcome (rhi w)). unfold after.
  rewrite Unmap_flush by assumption. cbn [snd this rhi].
  destruct (next_outcome (rhi w)); cbn; repeat split; reflexivity.
Qed.

Lemma Unmap_persistent_flushes_witness :
  exists ok,
    Unmap (after Map (after (_create nullptr) (never_created true 1024 [true; true; false])))
    = (Ret ok,
       after Unmap (after Map (after (_create nullptr) (never_created true 1024 [true; true; false]))))
    /\ ok = false.
Proof.
  destruct (Unmap_persistent_flushes
              (after Map (after (_create nullptr) (never_created true 1024 [true; true; false]))))
    as [ok H].
  - vm_compute. reflexivity.
  - vm_compute. reflexivity.
  - vm_compute. reflexivity.
  - vm_compute. discriminate.
  - exists ok. split; [apply H |].
    destruct H as (_ & _ & _ & _ & _ & -> & _). vm_compute. reflexivity.
Defined.



(** *** [_create] *)

Ltac create_case_tac w1 :=
  open_world w1; eval_world; use_tests;
  rewrite ?non_null_nullptr, ?non_null_pos; eval_world; use_tests;
  rewrite ?non_null_nullptr, ?non_null_pos; eval_world; reflexivity.

Lemma create_run indices w :
  attached w = true ->
  Create_case indices (destroyed w) (_create indices w).
Proof.
  intros Ha. apply attached_true in Ha as [Hd Hv].
  unfold _create. run. rewrite destroy_run by exact Hd. run.
  generalize (destroyed w). clear. intros w1.
  destruct (N.eqb_spec indices nullptr) as [Hi | Hi].
  - destruct (next_outcome (rhi w1)) eqn:Ho.
    + eapply eq_ind; [now apply Create_mappable_granted |].
      create_case_tac w1.
    + eapply eq_ind; [now apply Create_mappable_refused |].
      create_case_tac w1.
  - destruct (next_outcome (rhi w1)) eqn:Ho.
    + destruct (next_outcome (take_outcome (rhi w1))) eqn:Ho2.
      * eapply eq_ind; [now apply Create_staged |].
        create_case_tac w1.
      * eapply eq_ind; [now apply Create_destination_refused |].
        create_case_tac w1.
    + eapply eq_ind; [now apply Create_staging_refused |].
      create_case_tac w1.
Qed.

(** Case analysis on a call of [_create]; the world [_destroy] left is
    then given by its fields. *)
Ltac create_cases indices w Ha w1 :=
  let Hi := fresh "Hi" in
  let Ho := fresh "Ho" in
  let Ho2 := fresh "Ho2" in
  unfold after;
  destruct (create_run indices w Ha) as [Hi Ho | Hi Ho | Hi Ho | Hi Ho Ho2 | Hi Ho Ho2];
  cbn [fst snd];
  try (apply (proj2 (N.eqb_neq _ _)) in Hi);
  try subst indices;
  repeat match goal with
         | H : context [destroyed w] |- _ => revert H
         end;
  generalize (destroyed w); intros w1; intros;
  open_world w1; eval_world; rewrite ?N.eqb_refl; use_tests;
  try match goal with
      | H : (_ =? nullptr) = false |- _ => rewrite ?H
      end.


Lemma create_trace indices w :
  attached w = true ->
  trace (rhi (after (_create indices) w))
  = trace (rhi (destroyed w)) ++ create_events indices (destroyed w).
Proof.
  intros Ha. unfold create_events.
  create_cases indices w Ha w1; rewrite <- ?app_assoc; reflexivity.
Qed.

Lemma create_returns indices w :
  attached w = true ->
  exists ok, _create indices w = (Ret ok, after (_create indices) w).
Proof.
  intros Ha. unfold after.
  destruct (create_run indices w Ha); eexists; reflexivity.
Qed.

Lemma create_is_mappable indices w :
  attached w = true ->
  m_is_mappable (this (after (_create indices) w)) = (indices =? nullptr).
Proof.
  intros Ha. create_cases indices w Ha w1; reflexivity.
Qed.

Ltac split_ifs :=
  repeat (match goal with
          | |- context [if ?b then _ else _] => destruct b eqn:?
          end; run).

Lemma attached_same w w' :
  m_rhi_device (this w') = m_rhi_device (this w) ->
  device (rhi w') = device (rhi w) ->
  attached w' = attached w.
Proof. unfold attached. intros -> ->. reflexivity. Qed.

Lemma Map_keeps_members w :
  m_is_mappable (this (after Map w)) = m_is_mappable (this w)
  /\ m_allocation (this (after Map w)) = m_allocation (this w)
  /\ m_resource (this (after Map w)) = m_resource (this w)
  /\ buffers (rhi (after Map w)) = buffers (rhi w)
  /\ attached (after Map w) = attached w.
Proof.
  assert (H : m_is_mappable (this (after Map w)) = m_is_mappable (this w)
              /\ m_allocation (this (after Map w)) = m_allocation (this w)
              /\ m_resource (this (after Map w)) = m_resource (this w)
              /\ buffers (rhi (after Map w)) = buffers (rhi w)
              /\ m_rhi_device (this (after Map w)) = m_rhi_device (this w)
              /\ device (rhi (after Map w)) = device (rhi w)).
  { open_world w. unfold after, Map. run. split_ifs; repeat split; reflexivity. }
  destruct H as (? & ? & ? & ? & ? & ?). repeat split; auto using attached_same.
Qed.

Lemma Unmap_keeps_members w :
  m_is_mappable (this (after Unmap w)) = m_is_mappable (this w)
  /\ m_allocation (this (after Unmap w)) = m_allocation (this w)
  /\ m_resource (this (after Unmap w)) = m_resource (this w)
  /\ buffers (rhi (after Unmap w)) = buffers (rhi w)
  /\ next_handle (rhi (after Unmap w)) = next_handle (rhi w)
  /\ attached (after Unmap w) = attached w.
Proof.
  assert (H : m_is_mappable (this (after Unmap w)) = m_is_mappable (this w)
              /\ m_allocation (this (after Unmap w)) = m_allocation (this w)
              /\ m_resource (this (after Unmap w)) = m_resource (this w)
              /\ buffers (rhi (after Unmap w)) = buffers (rhi w)
              /\ next_handle (rhi (after Unmap w)) = next_handle (rhi w)
              /\ m_rhi_device (this (after Unmap w)) = m_rhi_device (this w)
              /\ device (rhi (after Unmap w)) = device (rhi w)).
  { open_world w. unfold after, Unmap. run. split_ifs; repeat split; reflexivity. }
  destruct H as (? & ? & ? & ? & ? & ? & ?). repeat split; auto using attached_same.
Qed.

Lemma destroy_keeps_members w :
  m_is_mappable (this (after _destroy w)) = m_is_mappable (this w)
  /\ m_allocation (this (after _destroy w)) = m_allocation (this w)
  /\ attached (after _destroy w) = attached w.
Proof.
  destruct (after_destroy_cases w) as [[_ ->] | [_ ->]];
    open_world w; repeat split; reflexivity.
Qed.

(** C5.  Whatever the size (in particular every size above 0), [_create]
    without source data leaves [m_is_mappable] true and [_create] with source
    data leaves it false; [Map], [Unmap] and [_destroy] never change it. *)
Theorem create_fixes_is_mappable (indices : N) (w : World) :
  attached w = true ->
  0 < m_object_size_gpu (this w) ->
  (exists ok, _create indices w = (Ret ok, after (_create indices) w))
  /\ (indices = nullptr -> m_is_mappable (this (after (_create indices) w)) = true)
  /\ (indices <> nullptr -> m_is_mappable (this (after (_create indices) w)) = false)
  /\ (forall w' : World,
        m_is_mappable (this (after Map w')) = m_is_mappable (this w')
        /\ m_is_mappable (this (after Unmap w')) = m_is_mappable (this w')
        /\ m_is_mappable (this (after _destroy w')) = m_is_mappable (this w')).
Proof.
  intros Ha _. split; [now apply create_returns |].
  rewrite create_is_mappable by assumption.
  split; [| split].
  - intros ->. reflexivity.
  - intros Hi. now apply N.eqb_neq.
  - intros w'. split; [apply Map_keeps_members |].
    split; [apply Unmap_keeps_members | apply destroy_keeps_members].
Qed.

Lemma create_fixes_is_mappable_witness :
  m_is_mappable (this (after (_create nullptr) (never_created false 1024 []))) = true
  /\ m_is_mappable (this (after (_create 7) (never_created false 2048 []))) = false.
Proof.
  split.
  - destruct (create_fixes_is_mappable nullptr (never_created false 1024 []))
      as (_ & H & _); [reflexivity | reflexivity | exact (H eq_refl)].
  - destruct (create_fixes_is_mappable 7 (never_created false 2048 []))
      as (_ & _ & H & _); [reflexivity | reflexivity | apply H; discriminate].
Defined.

(** C4.  On an attached object [_destroy] can be repeated: it returns, and
    called again on the world it left it returns again, changes neither the
    object nor the allocator and only repeats the wait; on an object that
    holds no resource and no mapping (never created) it likewise does
    nothing but wait; and every [_create] starts by making exactly the calls
    of [_destroy]. *)
Theorem destroy_idempotent (indices : N) (w : World) :
  attached w = true ->
  _destroy w = (Ret tt, after _destroy w)
  /\ (_destroy (after _destroy w)
      = (Ret tt,
         mkWorld (this (after _destroy w)) (emit EvQueueWaitAll (rhi (after _destroy w))))
      /\ this (after _destroy (after _destroy w)) = this (after _destroy w)
      /\ buffers (rhi (after _destroy (after _destroy w))) = buffers (rhi (after _destroy w))
      /\ trace (rhi (after _destroy (after _destroy w)))
         = trace (rhi (after _destroy w)) ++ [EvQueueWaitAll])
  /\ (m_resource (this w) = nullptr -> m_mapped (this w) = nullptr ->
      _destroy w = (Ret tt, mkWorld (this w) (emit EvQueueWaitAll (rhi w)))
      /\ this (after _destroy w) = this w
      /\ buffers (rhi (after _destroy w)) = buffers (rhi w)
      /\ trace (rhi (after _destroy w)) = trace (rhi w) ++ [EvQueueWaitAll])
  /\ (exists rest,
        trace (rhi (after (_create indices) w)) = trace (rhi (after _destroy w)) ++ rest).
Proof.
  intros Ha. pose proof (attached_device w Ha) as Hd.
  assert (Hd1 : non_null (m_rhi_device (this (destroyed w))) = true) by exact Hd.
  rewrite !(after_destroy w) by assumption.
  rewrite (after_destroy (destroyed w)) by assumption.
  rewrite (destroy_run w), (destroy_run (destroyed w)) by assumption.
  split; [reflexivity |]. split; [| split].
  - rewrite destroyed_twice. repeat split; reflexivity.
  - intros Hr Hm. rewrite destroyed_nothing by assumption. repeat split; reflexivity.
  - exists (create_events indices (destroyed w)).
    now apply create_trace.
Qed.

Lemma destroy_idempotent_witness :
  _destroy (never_created false 1024 [])
  = (Ret tt,
     mkWorld (this (never_created false 1024 []))
       (emit EvQueueWaitAll (rhi (never_created false 1024 []))))
  /\ trace (rhi (after _destroy (after _destroy
                                   (after (_create nullptr) (never_created false 1024 [])))))
     = trace (rhi (after _destroy (after (_create nullptr) (never_created false 1024 []))))
         ++ [EvQueueWaitAll].
Proof.
  split.
  - destruct (destroy_idempotent nullptr (never_created false 1024 []))
      as (_ & _ & H & _); [reflexivity |].
    apply H; reflexivity.
  - destruct (destroy_idempotent nullptr (after (_create nullptr) (never_created false 1024 [])))
      as (_ & (_ & _ & _ & H) & _); [vm_compute; reflexivity |].
    exact H.
Defined.

Lemma create_success_allocation indices w :
  attached w = true ->
  attached (after (_create indices) w) = true
  /\ (fst (_create indices w) = Ret true ->
      non_null (m_allocation (this (after (_create indices) w))) = true)
  /\ (fst (_create indices w) = Ret false ->
      m_allocation (this (after (_create indices) w)) = m_allocation (this w)).
Proof.
  intros Ha.
  assert (Ha1 : attached (destroyed w) = true) by exact Ha.
  change (m_allocation (this w)) with (m_allocation (this (destroyed w))).
  create_cases indices w Ha w1;
    (split; [exact Ha1 |]); split; intros H; try discriminate H; reflexivity.
Qed.

Lemma Map_passes_assertions w :
  attached w = true ->
  non_null (m_allocation (this w)) = true ->
  forall s, fst (Map w) <> AssertionFailed s.
Proof.
  intros Ha Hal s. apply attached_true in Ha as [Hd Hv]. open_world w.
  unfold Map. run. split_ifs; cbn [fst]; discriminate.
Qed.

(** C10.  The code does not do what the claim says of a destroyed resource.
    After a successful create and a destroy, [m_resource] and [m_mapped] are
    null and the allocator holds no buffer, but [m_allocation] still has the
    value of the released allocation: [Map] passes the assertion
    [m_allocation != nullptr] and hands the released allocation to
    [vmaMapMemory]. *)
Lemma Map_after_destroy_passes_assertion :
  m_is_mappable (this created_then_destroyed_world) = true
  /\ m_resource (this created_then_destroyed_world) = nullptr
  /\ m_mapped (this created_then_destroyed_world) = nullptr
  /\ buffers (rhi created_then_destroyed_world) = ∅
  /\ m_allocation (this created_then_destroyed_world) = 3
  /\ fst (Map created_then_destroyed_world) = Ret 4
  /\ trace (rhi (after Map created_then_destroyed_world))
     = trace (rhi created_then_destroyed_world) ++ [EvMapMemory 3 4].
Proof. vm_compute. repeat split. Qed.

(** *** The allocator and the object agree *)

Lemma handles_ok_delete bs h b :
  handles_ok bs h -> handles_ok (delete b bs) h.
Proof.
  intros [Hlt Hinj]. split.
  - intros b' a H. apply lookup_delete_Some in H as [_ H]. eauto.
  - intros b1 b2 a H1 H2.
    apply lookup_delete_Some in H1 as [_ H1].
    apply lookup_delete_Some in H2 as [_ H2]. eauto.
Qed.

Lemma handles_ok_succ bs h :
  handles_ok bs h -> handles_ok bs (Pos.succ h).
Proof.
  intros [Hlt Hinj]. split; [| exact Hinj].
  intros b a H. destruct (Hlt b a H). lia.
Qed.

Lemma handles_ok_grant bs h :
  handles_ok bs h ->
  handles_ok (<[N.pos h := N.pos (Pos.succ h)]> bs) (Pos.succ (Pos.succ h)).
Proof.
  intros [Hlt Hinj]. split.
  - intros b a H. apply lookup_insert_Some in H as [[<- <-] | [_ H]]; [lia |].
    destruct (Hlt b a H). lia.
  - intros b1 b2 a H1 H2.
    apply lookup_insert_Some in H1 as [[<- <-] | [Hn1 H1]];
      apply lookup_insert_Some in H2 as [[<- E] | [Hn2 H2]]; try reflexivity.
    + destruct (Hlt b2 _ H2). lia.
    + subst a. destruct (Hlt b1 _ H1). lia.
    + eauto.
Qed.

Lemma destroyed_consistent w :
  consistent w ->
  consistent (destroyed w)
  /\ m_resource (this (destroyed w)) = nullptr
  /\ ~ live_allocation (rhi (destroyed w)) (m_allocation (this (destroyed w))).
Proof.
  intros (Hok & Hlt & Hown). open_world w.
  unfold consistent, live_allocation, destroyed. eval_world.
  rewrite non_null_nullptr.
  assert (Hdead : ~ (exists b,
             (if non_null m_resource0 then delete m_resource0 buffers0 else buffers0) !! b
             = Some m_allocation0)).
  { destruct (non_null m_resource0); [| exact Hown].
    intros [b Hb]. apply lookup_delete_Some in Hb as [Hne Hb].
    apply Hne. destruct Hok as [_ Hinj]. eauto. }
  split; [split; [| split] | split]; try assumption; try reflexivity.
  destruct (non_null m_resource0); [now apply handles_ok_delete | exact Hok].
Qed.

Lemma create_consistent indices w :
  attached w = true -> consistent w -> consistent (after (_create indices) w).
Proof.
  intros Ha Hc. apply destroyed_consistent in Hc as ((Hok & Hlt & _) & Hr & Hdead).
  unfold consistent, live_allocation in *.
  create_cases indices w Ha w1; rewrite ?non_null_nullptr, ?non_null_pos.
  - auto.
  - split; [now apply handles_ok_grant |]. split; [lia |]. apply lookup_insert_eq.
  - auto.
  - split; [now apply handles_ok_grant |]. split; [lia |].
    intros [b Hb]. apply lookup_insert_Some in Hb as [[_ E] | [_ Hb]]; [lia | eauto].
  - split.
    { apply handles_ok_succ, handles_ok_delete, handles_ok_grant, handles_ok_grant, Hok. }
    split; [lia |].
    rewrite lookup_delete_ne by (intros E; injection E; lia).
    apply lookup_insert_eq.
Qed.

Lemma never_created_consistent persistent size driver :
  consistent (never_created persistent size driver).
Proof.
  unfold consistent, live_allocation, handles_ok. cbn.
  repeat split; try lia.
  - rewrite lookup_empty in H. discriminate.
  - rewrite lookup_empty in H. discriminate.
  - intros b1 b2 a H. rewrite lookup_empty in H. discriminate.
  - intros [b H]. rewrite lookup_empty in H. discriminate.
Qed.

(** C1 fails on the code.  When the driver grants the staging buffer and
    refuses the destination buffer, [_create] returns [false] right after the
    refused allocation: the staging buffer is still held by the allocator,
    the object does not refer to it, and no call destroys it. *)
Theorem create_leaks_staging_buffer (indices : N) (w : World) :
  attached w = true ->
  indices <> nullptr ->
  next_outcome (rhi w) = true ->
  next_outcome (take_outcome (rhi w)) = false ->
  _create indices w = (Ret false, after (_create indices) w)
  /\ buffers (rhi (after (_create indices) w)) !! N.pos (next_handle (rhi w))
     = Some (N.pos (Pos.succ (next_handle (rhi w))))
  /\ m_resource (this (after (_create indices) w)) = nullptr
  /\ trace (rhi (after (_create indices) w))
     = trace (rhi (after _destroy w))
         ++ [EvCreateBuffer (m_object_size_gpu (this w)) VK_BUFFER_USAGE_TRANSFER_SRC_BIT
               staging_flags indices
               (N.pos (next_handle (rhi w))) (N.pos (Pos.succ (next_handle (rhi w))));
             EvCreateBuffer (m_object_size_gpu (this w)) destination_usage
               VK_MEMORY_PROPERTY_DEVICE_LOCAL_BIT nullptr nullptr nullptr].
Proof.
  intros Ha Hi Ho1 Ho2.
  rewrite after_destroy_attached by assumption.
  change (next_handle (rhi w)) with (next_handle (rhi (destroyed w))).
  change (m_object_size_gpu (this w)) with (m_object_size_gpu (this (destroyed w))).
  assert (Hr : m_resource (this (destroyed w)) = nullptr) by reflexivity.
  assert (Ho1' : next_outcome (rhi (destroyed w)) = true) by exact Ho1.
  assert (Ho2' : next_outcome (take_outcome (rhi (destroyed w))) = false) by exact Ho2.
  clear Ho1 Ho2.
  create_cases indices w Ha w1; try congruence.
  repeat split.
  - apply lookup_insert_eq.
  - rewrite <- app_assoc. reflexivity.
Qed.

Lemma create_leaks_staging_buffer_witness :
  _create 7 (never_created false 2048 [true; false])
  = (Ret false, after (_create 7) (never_created false 2048 [true; false]))
  /\ buffers (rhi (after (_create 7) (never_created false 2048 [true; false]))) !! 2 = Some 3
  /\ m_resource (this (after (_create 7) (never_created false 2048 [true; false]))) = nullptr.
Proof.
  destruct (create_leaks_staging_buffer 7 (never_created false 2048 [true; false]))
    as (H1 & H2 & H3 & _);
    [reflexivity | discriminate | reflexivity | reflexivity |].
  split; [exact H1 | split; [exact H2 | exact H3]].
Defined.

(** C2.  The code does not keep what the claim says of a failed creation.
    When [_create] without source data is called on an attached object whose
    allocation member is not null (it holds a buffer, or held one) and the
    driver refuses the allocation, it returns [false] with a null resource
    handle and no mapping, but the object is not back to an uninitialised
    state: [m_is_mappable] is already [true] and [m_allocation] still has
    the value of an allocation that backs no live buffer, so that a
    following [Map] passes its assertions and hands that allocation to
    [vmaMapMemory]. *)
Theorem failed_create_keeps_released_allocation (w : World) :
  attached w = true ->
  consistent w ->
  m_allocation (this w) <> nullptr ->
  next_outcome (rhi w) = false ->
  _create nullptr w = (Ret false, after (_create nullptr) w)
  /\ m_resource (this (after (_create nullptr) w)) = nullptr
  /\ m_mapped (this (after (_create nullptr) w)) = nullptr
  /\ m_is_mappable (this (after (_create nullptr) w)) = true
  /\ m_allocation (this (after (_create nullptr) w)) = m_allocation (this w)
  /\ ~ live_allocation (rhi (after (_create nullptr) w)) (m_allocation (this w))
  /\ (forall s, fst (Map (after (_create nullptr) w)) <> AssertionFailed s)
  /\ exists p,
       trace (rhi (after Map (after (_create nullptr) w)))
       = trace (rhi (after (_create nullptr) w)) ++ [EvMapMemory (m_allocation (this w)) p].
Proof.
  intros Ha Hc Hal Ho. apply not_null_non_null in Hal.
  apply destroyed_consistent in Hc as (_ & _ & Hdead).
  assert (Hrun : _create nullptr w
            = (Ret false,
               mkWorld (set_m_is_mappable true (this (destroyed w)))
                 (refused_buffer (m_object_size_gpu (this (destroyed w)))
                    VK_BUFFER_USAGE_INDEX_BUFFER_BIT (mappable_flags (this (destroyed w)))
                    nullptr (rhi (destroyed w))))).
  { change (next_outcome (rhi w)) with (next_outcome (rhi (destroyed w))) in Ho.
    destruct (create_run nullptr w Ha); congruence. }
  unfold after. rewrite Hrun. cbn [snd].
  set (w' := mkWorld _ _).
  assert (Ha' : attached w' = true) by exact Ha.
  assert (Hm' : m_is_mappable (this w') = true) by reflexivity.
  assert (Hal' : non_null (m_allocation (this w')) = true) by exact Hal.
  assert (Hmp' : m_mapped (this w') = nullptr) by reflexivity.
  split; [reflexivity |]. split; [reflexivity |]. split; [reflexivity |].
  split; [reflexivity |]. split; [reflexivity |]. split; [exact Hdead |].
  split; [now apply Map_passes_assertions |].
  destruct (next_outcome (rhi w')) eqn:Ho'.
  - rewrite Map_granted by assumption. eexists. reflexivity.
  - rewrite Map_refused by assumption. eexists. reflexivity.
Qed.

Lemma failed_create_keeps_released_allocation_witness :
  _create nullptr (after (_create nullptr) (never_created false 1024 [true; false]))
  = (Ret false,
     after (_create nullptr) (after (_create nullptr) (never_created false 1024 [true; false])))
  /\ m_is_mappable
       (this (after (_create nullptr)
                (after (_create nullptr) (never_created false 1024 [true; false]))))
     = true
  /\ m_allocation
       (this (after (_create nullptr)
                (after (_create nullptr) (never_created false 1024 [true; false]))))
     = 3
  /\ buffers
       (rhi (after (_create nullptr)
               (after (_create nullptr) (never_created false 1024 [true; false]))))
     = ∅.
Proof.
  destruct (failed_create_keeps_released_allocation
              (after (_create nullptr) (never_created false 1024 [true; false])))
    as (Hrun & _ & _ & Hm & Hal & _).
  - vm_compute. reflexivity.
  - apply create_consistent; [reflexivity | apply never_created_consistent].
  - vm_compute. discriminate.
  - vm_compute. reflexivity.
  - split; [exact Hrun |]. split; [exact Hm |].
    split; [rewrite Hal |]; vm_compute; reflexivity.
Defined.

(** ** Further properties *)

Lemma Unmap_cases w : Unmap_case w.
Proof.
  destruct (m_is_mappable (this w)) eqn:Hm; [| now apply Unmap_case_not_mappable].
  destruct (non_null (m_allocation (this w))) eqn:Hal.
  2:{ apply non_null_false in Hal. now apply Unmap_case_no_allocation. }
  destruct (m_persistent_mapping (this w)) eqn:Hp.
  - destruct (non_null (m_rhi_device (this w))) eqn:Hd; [now apply Unmap_case_flush |].
    apply non_null_false in Hd.
    apply Unmap_case_null_device; [exact Hd | now apply Unmap_flush_null_device].
  - destruct (non_null (m_mapped (this w))) eqn:Hmp.
    + destruct (non_null (m_rhi_device (this w))) eqn:Hd; [now apply Unmap_case_release |].
      apply non_null_false in Hd.
      apply Unmap_case_null_device; [exact Hd | now apply Unmap_release_null_device].
    + apply non_null_false in Hmp. now apply Unmap_case_nothing_mapped.
Qed.

Lemma create_detached indices w :
  attached w = false ->
  exists s, _create indices w = (AssertionFailed s, w).
Proof.
  unfold attached. intros Ha. unfold _create.
  destruct (non_null (m_rhi_device (this w))) eqn:Hd.
  - destruct (non_null (device (rhi w))) eqn:Hv; [discriminate Ha |].
    eexists. run. reflexivity.
  - eexists. run. reflexivity.
Qed.

Lemma run_calls_preserve (P : World -> Prop) :
  (forall indices w, attached w = true -> P w -> P (after (_create indices) w)) ->
  (forall w, P w -> P (after Map w)) ->
  (forall w, P w -> P (after Unmap w)) ->
  (forall w, non_null (m_rhi_device (this w)) = true -> P w -> P (destroyed w)) ->
  forall cs w, P w -> P (run_calls cs w).
Proof.
  intros Hcreate Hmap Hunmap Hdestroy cs.
  induction cs as [|c cs IH]; intros w Hw; [exact Hw |].
  cbn [run_calls fold_left]. apply IH.
  destruct c as [indices | | |]; cbn [run_call]; auto.
  - destruct (attached w) eqn:Ha; [auto |].
    destruct (create_detached indices w Ha) as [s Hs].
    unfold after. rewrite Hs. exact Hw.
  - destruct (after_destroy_cases w) as [[Hd ->] | [_ ->]]; auto.
Qed.

(** X1.  An assertion of [_create] that fails stops the call before anything
    is done: the previous buffer is not destroyed, no call reaches the
    driver and the object is unchanged. *)
Theorem create_asserts_before_effects (indices : N) (w : World) :
  attached w = false ->
  exists condition,
    _create indices w = (AssertionFailed condition, w)
    /\ (m_rhi_device (this w) = nullptr -> condition = "m_rhi_device != nullptr"%string).
Proof.
  unfold attached. intros Ha. unfold _create.
  destruct (non_null (m_rhi_device (this w))) eqn:Hd.
  - destruct (non_null (device (rhi w))) eqn:Hv; [discriminate Ha |].
    eexists. run. split; [reflexivity |].
    intros E. rewrite E in Hd. discriminate Hd.
  - eexists. run. split; reflexivity.
Qed.

Lemma create_asserts_before_effects_witness :
  exists condition,
    _create 7 (mkWorld (this (never_created false 64 []))
                 (mkContext nullptr ∅ 2%positive [] [] []))
    = (AssertionFailed condition,
       mkWorld (this (never_created false 64 [])) (mkContext nullptr ∅ 2%positive [] [] [])).
Proof.
  destruct (create_asserts_before_effects 7
              (mkWorld (this (never_created false 64 []))
                 (mkContext nullptr ∅ 2%positive [] [] [])))
    as (condition & H & _); [reflexivity |].
  exists condition. exact H.
Defined.

Lemma create_keeps_configuration indices w :
  attached w = true -> same_configuration w (after (_create indices) w).
Proof.
  intros Ha. unfold same_configuration.
  change (m_rhi_device (this w)) with (m_rhi_device (this (destroyed w))).
  change (m_persistent_mapping (this w)) with (m_persistent_mapping (this (destroyed w))).
  change (m_object_size_gpu (this w)) with (m_object_size_gpu (this (destroyed w))).
  change (m_object_name (this w)) with (m_object_name (this (destroyed w))).
  change (device (rhi w)) with (device (rhi (destroyed w))).
  create_cases indices w Ha w1; repeat split; reflexivity.
Qed.

Lemma Map_keeps_configuration w : same_configuration w (after Map w).
Proof.
  unfold same_configuration. open_world w. unfold after, Map. run.
  split_ifs; repeat split; reflexivity.
Qed.

Lemma Unmap_keeps_configuration w : same_configuration w (after Unmap w).
Proof.
  unfold same_configuration. open_world w. unfold after, Unmap. run.
  split_ifs; repeat split; reflexivity.
Qed.

Lemma destroy_keeps_configuration w : same_configuration w (destroyed w).
Proof. unfold same_configuration. open_world w. repeat split; reflexivity. Qed.

Lemma same_configuration_trans w1 w2 w3 :
  same_configuration w1 w2 -> same_configuration w2 w3 -> same_configuration w1 w3.
Proof.
  unfold same_configuration. intros (-> & -> & -> & -> & ->) H. exact H.
Qed.

(** X2.  No member function writes the device pointer, the persistent-mapping
    flag, the size or the name: whatever calls are made, in whatever order
    and with whatever outcome, they keep the values they had. *)
Theorem calls_keep_configuration (cs : list call) (w : World) :
  same_configuration w (run_calls cs w).
Proof.
  apply (run_calls_preserve (same_configuration w)).
  - intros indices w' Ha H.
    eapply same_configuration_trans; [exact H | now apply create_keeps_configuration].
  - intros w' H.
    eapply same_configuration_trans; [exact H | apply Map_keeps_configuration].
  - intros w' H.
    eapply same_configuration_trans; [exact H | apply Unmap_keeps_configuration].
  - intros w' _ H.
    eapply same_configuration_trans; [exact H | apply destroy_keeps_configuration].
  - unfold same_configuration. repeat split; reflexivity.
Qed.

Lemma create_unmapped indices w :
  attached w = true -> m_mapped (this (after (_create indices) w)) = nullptr.
Proof.
  intros Ha.
  assert (Hmp : m_mapped (this (destroyed w)) = nullptr) by reflexivity.
  create_cases indices w Ha w1; reflexivity.
Qed.

Lemma mapping_sane_unmapped w :
  m_mapped (this w) = nullptr -> mapping_sane w = true.
Proof. unfold mapping_sane. intros ->. reflexivity. Qed.

Lemma Map_mapping_sane w : mapping_sane w = true -> mapping_sane (after Map w) = true.
Proof.
  intros Hs. unfold after.
  destruct (Map_cases w) as [Hm | s Hm Hs' | Hm Ha Hal Hmp | Hm Ha Hal Hmp Ho | Hm Ha Hal Hmp Ho].
  - rewrite Map_not_mappable by assumption. exact Hs.
  - rewrite Hs'. exact Hs.
  - rewrite Map_cached by assumption. exact Hs.
  - rewrite Map_refused by assumption. exact Hs.
  - rewrite Map_granted by assumption. unfold mapping_sane. cbn [snd this].
    open_world w. cbn [set_m_mapped m_mapped m_is_mappable m_allocation].
    rewrite Hal. reflexivity.
Qed.

Lemma Unmap_mapping_sane w : mapping_sane w = true -> mapping_sane (after Unmap w) = true.
Proof.
  intros Hs. unfold after.
  destruct (Unmap_cases w) as [Hm | Hm Hal | Hdn Hnull | Hm Hal Hp Hd | Hm Hal Hp Hmp Hd | Hm Hal Hp Hmp].
  - rewrite Unmap_not_mappable by assumption. exact Hs.
  - rewrite Unmap_no_allocation by assumption. exact Hs.
  - rewrite Hnull. exact Hs.
  - rewrite Unmap_flush by assumption. exact Hs.
  - rewrite Unmap_release by assumption. now apply mapping_sane_unmapped.
  - rewrite Unmap_nothing_mapped by assumption. exact Hs.
Qed.

(** X3.  A mapping is only ever recorded on a mappable object that has an
    allocation: if [m_mapped] is null or the object is mappable with an
    allocation, this stays so through any calls, so an object created from
    source data never has an active mapping. *)
Theorem calls_keep_mapping_sane (cs : list call) (w : World) :
  mapping_sane w = true -> mapping_sane (run_calls cs w) = true.
Proof.
  apply (run_calls_preserve (fun w => mapping_sane w = true)).
  - intros indices w' Ha _. now apply mapping_sane_unmapped, create_unmapped.
  - apply Map_mapping_sane.
  - apply Unmap_mapping_sane.
  - intros w' _ _. now apply mapping_sane_unmapped.
Qed.

Lemma calls_keep_mapping_sane_witness :
  mapping_sane
    (run_calls [CallCreate nullptr; CallMap; CallCreate 7; CallMap; CallUnmap]
       (never_created false 1024 []))
  = true.
Proof.
  apply (calls_keep_mapping_sane
           [CallCreate nullptr; CallMap; CallCreate 7; CallMap; CallUnmap]
           (never_created false 1024 [])).
  reflexivity.
Defined.

(** *** What the driver has mapped *)

Lemma pairing_app evs evs' :
  pairing (evs ++ evs') = fold_left pairing_step evs' (pairing evs).
Proof. unfold pairing. apply fold_left_app. Qed.

Lemma create_events_pairing indices w1 :
  fold_left pairing_step (create_events indices w1) (Some None) = Some None.
Proof.
  unfold create_events.
  destruct (indices =? nullptr), (next_outcome (rhi w1)),
    (next_outcome (take_outcome (rhi w1))); reflexivity.
Qed.

Lemma destroy_mapping_tracked w : mapping_tracked w -> mapping_tracked (destroyed w).
Proof.
  unfold mapping_tracked. open_world w.
  unfold destroyed, destroy_events.
  cbn [this rhi trace m_mapped m_resource m_allocation set_m_resource set_m_mapped].
  intros H. rewrite pairing_app, H, non_null_nullptr.
  destruct (non_null m_mapped0), (non_null m_resource0); cbn;
    rewrite ?N.eqb_refl; reflexivity.
Qed.

Lemma create_mapping_tracked indices w :
  attached w = true -> mapping_tracked w -> mapping_tracked (after (_create indices) w).
Proof.
  intros Ha H. apply destroy_mapping_tracked in H.
  unfold mapping_tracked in *.
  rewrite create_trace, create_unmapped by assumption.
  rewrite pairing_app, H. change (m_mapped (this (destroyed w))) with nullptr.
  rewrite non_null_nullptr. apply create_events_pairing.
Qed.

Lemma Map_mapping_tracked w : mapping_tracked w -> mapping_tracked (after Map w).
Proof.
  intros H. unfold after.
  destruct (Map_cases w) as [Hm | s Hm Hs' | Hm Ha Hal Hmp | Hm Ha Hal Hmp Ho | Hm Ha Hal Hmp Ho].
  - rewrite Map_not_mappable by assumption. exact H.
  - rewrite Hs'. exact H.
  - rewrite Map_cached by assumption. exact H.
  - rewrite Map_refused by assumption. unfold mapping_tracked in *.
    open_world w. eval_world. rewrite pairing_app, H. reflexivity.
  - rewrite Map_granted by assumption. unfold mapping_tracked in *.
    open_world w. eval_world. rewrite pairing_app, H. reflexivity.
Qed.

Lemma Unmap_mapping_tracked w : mapping_tracked w -> mapping_tracked (after Unmap w).
Proof.
  intros H. unfold after.
  destruct (Unmap_cases w) as [Hm | Hm Hal | Hdn Hnull | Hm Hal Hp Hd | Hm Hal Hp Hmp Hd | Hm Hal Hp Hmp].
  - rewrite Unmap_not_mappable by assumption. exact H.
  - rewrite Unmap_no_allocation by assumption. exact H.
  - rewrite Hnull. exact H.
  - rewrite Unmap_flush by assumption. unfold mapping_tracked in *.
    open_world w. destruct (next_outcome _); unfold id; eval_world;
      rewrite pairing_app, H; reflexivity.
  - rewrite Unmap_release by assumption. unfold mapping_tracked in *.
    open_world w. eval_world. rewrite pairing_app, H, Hmp. cbn.
    rewrite N.eqb_refl. reflexivity.
  - rewrite Unmap_nothing_mapped by assumption. exact H.
Qed.

(** X4.  The calls that reach the driver keep the mapping discipline and
    [m_mapped] follows it: through any calls, an allocation is never mapped
    while another mapping is active, [vmaUnmapMemory] is only called on the
    allocation that is mapped, no buffer is destroyed while the mapping is
    active, and [m_mapped] is null exactly when the driver has nothing
    mapped. *)
Theorem calls_keep_mapping_tracked (cs : list call) (w : World) :
  mapping_tracked w -> mapping_tracked (run_calls cs w).
Proof.
  apply (run_calls_preserve mapping_tracked).
  - apply create_mapping_tracked.
  - apply Map_mapping_tracked.
  - apply Unmap_mapping_tracked.
  - intros w' _. apply destroy_mapping_tracked.
Qed.

Lemma calls_keep_mapping_tracked_witness :
  pairing
    (trace (rhi (run_calls [CallCreate nullptr; CallMap; CallMap; CallDestroy; CallMap]
                   (never_created false 1024 [true; false]))))
  = Some (Some 3).
Proof.
  rewrite (calls_keep_mapping_tracked [CallCreate nullptr; CallMap; CallMap; CallDestroy; CallMap]
             (never_created false 1024 [true; false])).
  - vm_compute. reflexivity.
  - reflexivity.
Defined.

(** *** Buffers held by the allocator *)

Lemma create_resource_live indices w :
  attached w = true -> resource_live (after (_create indices) w).
Proof.
  intros Ha. unfold resource_live.
  assert (Hr : m_resource (this (destroyed w)) = nullptr) by reflexivity.
  create_cases indices w Ha w1; try congruence.
  - apply lookup_insert_eq.
  - rewrite lookup_delete_ne by (intros E; injection E; lia).
    apply lookup_insert_eq.
Qed.

(** X5.  The resource handle never dangles: if a resource handle that is not
    null names a live buffer backed by [m_allocation], this stays so
    through any calls, whatever their outcome. *)
Theorem calls_keep_resource_live (cs : list call) (w : World) :
  resource_live w -> resource_live (run_calls cs w).
Proof.
  apply (run_calls_preserve resource_live).
  - intros indices w' Ha _. now apply create_resource_live.
  - intros w' H. unfold resource_live in *.
    destruct (Map_keeps_members w') as (_ & -> & -> & -> & _). exact H.
  - intros w' H. unfold resource_live in *.
    destruct (Unmap_keeps_members w') as (_ & -> & -> & -> & _). exact H.
  - intros w' _ _ Hn. now contradiction Hn.
Qed.

Lemma calls_keep_resource_live_witness :
  buffers
    (rhi (run_calls [CallCreate 7; CallCreate nullptr; CallMap; CallDestroy; CallCreate 9]
            (never_created true 512 [true; false; true])))
    !! m_resource
         (this (run_calls [CallCreate 7; CallCreate nullptr; CallMap; CallDestroy; CallCreate 9]
                  (never_created true 512 [true; false; true])))
  = Some (m_allocation
            (this (run_calls [CallCreate 7; CallCreate nullptr; CallMap; CallDestroy; CallCreate 9]
                     (never_created true 512 [true; false; true])))).
Proof.
  assert (H0 : resource_live (never_created true 512 [true; false; true])).
  { intros H. now contradiction H. }
  pose proof (calls_keep_resource_live
                [CallCreate 7; CallCreate nullptr; CallMap; CallDestroy; CallCreate 9]
                (never_created true 512 [true; false; true]) H0) as H.
  apply H. vm_compute. discriminate.
Defined.

(** X6.  [Map] and [Unmap] never allocate or free a buffer and never touch
    the resource or allocation handle of the object. *)
Theorem Map_Unmap_leave_buffers (w : World) :
  buffers (rhi (after Map w)) = buffers (rhi w)
  /\ m_resource (this (after Map w)) = m_resource (this w)
  /\ m_allocation (this (after Map w)) = m_allocation (this w)
  /\ buffers (rhi (after Unmap w)) = buffers (rhi w)
  /\ m_resource (this (after Unmap w)) = m_resource (this w)
  /\ m_allocation (this (after Unmap w)) = m_allocation (this w).
Proof.
  destruct (Map_keeps_members w) as (_ & Ha & Hr & Hb & _).
  destruct (Unmap_keeps_members w) as (_ & Ha' & Hr' & Hb' & _).
  repeat split; assumption.
Qed.

Lemma fresh_handle_unused bs h b :
  handles_ok bs h -> N.pos h <= b -> bs !! b = None.
Proof.
  intros [Hlt _] Hb. destruct (bs !! b) as [a|] eqn:E; [| reflexivity].
  destruct (Hlt b a E). lia.
Qed.

(** X7.  A [_create] that returns [true] leaves the allocator with the
    buffers it held after the initial [_destroy] plus exactly one new
    buffer, the one the object now refers to; on the staged path the staging
    buffer is gone again. *)
Theorem create_success_adds_one_buffer (indices : N) (w : World) :
  attached w = true ->
  consistent w ->
  fst (_create indices w) = Ret true ->
  buffers (rhi (after _destroy w)) !! m_resource (this (after (_create indices) w)) = None
  /\ buffers (rhi (after (_create indices) w))
     = <[m_resource (this (after (_create indices) w))
         := m_allocation (this (after (_create indices) w))]>
         (buffers (rhi (after _destroy w))).
Proof.
  intros Ha Hc. rewrite after_destroy_attached by assumption.
  apply destroyed_consistent in Hc as ((Hok & _) & _).
  create_cases indices w Ha w1; try discriminate.
  - split; [| reflexivity]. apply (fresh_handle_unused _ _ _ Hok). lia.
  - split; [apply (fresh_handle_unused _ _ _ Hok); lia |].
    rewrite delete_insert_ne by (intros E; injection E; lia).
    rewrite delete_insert_id; [reflexivity |].
    apply (fresh_handle_unused _ _ _ Hok). lia.
Qed.

Lemma create_success_adds_one_buffer_witness :
  buffers (rhi (after (_create 7) (after (_create nullptr) (never_created false 64 []))))
  = <[m_resource (this (after (_create 7) (after (_create nullptr) (never_created false 64 []))))
      := m_allocation (this (after (_create 7) (after (_create nullptr) (never_created false 64 []))))]>
      (buffers (rhi (after _destroy (after (_create nullptr) (never_created false 64 []))))).
Proof.
  destruct (create_success_adds_one_buffer 7
              (after (_create nullptr) (never_created false 64 [])))
    as (_ & H).
  - vm_compute. reflexivity.
  - apply create_consistent; [reflexivity | apply never_created_consistent].
  - vm_compute. reflexivity.
  - exact H.
Defined.



Lemma create_sole_owner indices w :
  attached w = true -> sole_owner w -> sole_owner (after (_create indices) w).
Proof.
  intros Ha [Hout Hbs].
  assert (Hout1 : outcomes (rhi (destroyed w)) = []) by exact Hout.
  assert (Hbs1 : buffers (rhi (destroyed w)) = ∅).
  { unfold destroyed. cbn [rhi buffers]. rewrite Hbs.
    destruct (non_null (m_resource (this w))); [apply delete_singleton_eq | reflexivity]. }
  unfold sole_owner.
  create_cases indices w Ha w1; try discriminate;
    rewrite ?non_null_pos; (split; [reflexivity |]).
  - apply insert_empty.
  - rewrite delete_insert_ne by (intros E; injection E; lia).
    rewrite delete_insert_id by apply lookup_empty. apply insert_empty.
Qed.

Lemma Map_sole_owner w : sole_owner w -> sole_owner (after Map w).
Proof.
  unfold sole_owner. intros [Hout Hbs].
  destruct (Map_keeps_members w) as (_ & -> & -> & -> & _).
  split; [| exact Hbs].
  unfold after.
  destruct (Map_cases w) as [Hm | s Hm Hs | Hm Ha Hal Hmp | Hm Ha Hal Hmp Ho | Hm Ha Hal Hmp Ho].
  - rewrite Map_not_mappable by assumption. exact Hout.
  - rewrite Hs. exact Hout.
  - rewrite Map_cached by assumption. exact Hout.
  - rewrite Map_refused by assumption. cbn. rewrite Hout. reflexivity.
  - rewrite Map_granted by assumption. cbn. rewrite Hout. reflexivity.
Qed.

Lemma Unmap_sole_owner w : sole_owner w -> sole_owner (after Unmap w).
Proof.
  unfold sole_owner. intros [Hout Hbs].
  destruct (Unmap_keeps_members w) as (_ & -> & -> & -> & _).
  split; [| exact Hbs].
  unfold after.
  destruct (Unmap_cases w) as [Hm | Hm Hal | Hdn Hnull | Hm Hal Hp Hd | Hm Hal Hp Hmp Hd | Hm Hal Hp Hmp].
  - rewrite Unmap_not_mappable by assumption. exact Hout.
  - rewrite Unmap_no_allocation by assumption. exact Hout.
  - rewrite Hnull. exact Hout.
  - rewrite Unmap_flush by assumption.
    destruct (next_outcome (rhi w)); cbn; rewrite Hout; reflexivity.
  - rewrite Unmap_release by assumption. exact Hout.
  - rewrite Unmap_nothing_mapped by assumption. exact Hout.
Qed.

Lemma destroy_sole_owner w :
  sole_owner w -> sole_owner (destroyed w) /\ buffers (rhi (destroyed w)) = ∅.
Proof.
  unfold sole_owner. intros [Hout Hbs].
  assert (Hempty : buffers (rhi (destroyed w)) = ∅).
  { unfold destroyed. cbn [rhi buffers]. rewrite Hbs.
    destruct (non_null (m_resource (this w))); [apply delete_singleton_eq | reflexivity]. }
  split; [| exact Hempty]. split; [exact Hout |]. rewrite Hempty. reflexivity.
Qed.

Lemma run_calls_attached cs w :
  attached w = true -> attached (run_calls cs w) = true.
Proof.
  apply (run_calls_preserve (fun w => attached w = true)).
  - intros indices w' Ha _. now apply create_success_allocation.
  - intros w' H. destruct (Map_keeps_members w') as (_ & _ & _ & _ & ->). exact H.
  - intros w' H. destruct (Unmap_keeps_members w') as (_ & _ & _ & _ & _ & ->). exact H.
  - intros w' _ H. exact H.
Qed.

(** X9.  With a driver that refuses nothing, no buffer is ever leaked: if
    the object is attached and the allocator holds the buffer of the object
    and no other, this stays so through any calls, and a final [_destroy]
    returns and leaves the allocator empty. *)
Theorem calls_leak_nothing_when_granted (cs : list call) (w : World) :
  attached w = true ->
  sole_owner w ->
  sole_owner (run_calls cs w)
  /\ _destroy (run_calls cs w) = (Ret tt, after _destroy (run_calls cs w))
  /\ buffers (rhi (after _destroy (run_calls cs w))) = ∅.
Proof.
  intros Ha Hs.
  assert (Hs' : sole_owner (run_calls cs w)).
  { revert Hs. apply (run_calls_preserve sole_owner).
    - apply create_sole_owner.
    - apply Map_sole_owner.
    - apply Unmap_sole_owner.
    - intros w' _ H. now apply destroy_sole_owner. }
  pose proof (attached_device _ (run_calls_attached cs w Ha)) as Hd.
  rewrite after_destroy, destroy_run by assumption.
  split; [exact Hs' |]. split; [reflexivity | now apply destroy_sole_owner].
Qed.

Lemma calls_leak_nothing_when_granted_witness :
  buffers
    (rhi (after _destroy
            (run_calls [CallCreate 7; CallCreate nullptr; CallMap; CallCreate 9]
               (never_created false 256 []))))
  = ∅.
Proof.
  destruct (calls_leak_nothing_when_granted
              [CallCreate 7; CallCreate nullptr; CallMap; CallCreate 9]
              (never_created false 256 []))
    as (_ & _ & H).
  - reflexivity.
  - split; reflexivity.
  - exact H.
Defined.

(** *** What [_create] asks of the allocator *)

(** X10.  Without source data [_create] asks for one buffer only: an index
    buffer of [m_object_size_gpu] bytes without initial data, in memory that
    is host visible, never device local, and host coherent exactly when
    persistent mapping is off.  The name is set only if it was granted. *)
Theorem create_mappable_request (w : World) :
  attached w = true ->
  exists flags buffer allocation,
    trace (rhi (after (_create nullptr) w))
    = trace (rhi (after _destroy w))
        ++ EvCreateBuffer (m_object_size_gpu (this w)) VK_BUFFER_USAGE_INDEX_BUFFER_BIT
             flags nullptr buffer allocation
           :: (if non_null allocation
               then [EvSetName buffer (m_object_name (this w))] else [])
    /\ N.land flags VK_MEMORY_PROPERTY_HOST_VISIBLE_BIT = VK_MEMORY_PROPERTY_HOST_VISIBLE_BIT
    /\ N.land flags VK_MEMORY_PROPERTY_DEVICE_LOCAL_BIT = 0
    /\ N.land flags VK_MEMORY_PROPERTY_HOST_COHERENT_BIT
       = (if m_persistent_mapping (this w) then 0 else VK_MEMORY_PROPERTY_HOST_COHERENT_BIT).
Proof.
  intros Ha. rewrite after_destroy_attached, create_trace by assumption.
  unfold create_events. rewrite N.eqb_refl.
  change (m_object_size_gpu (this (destroyed w))) with (m_object_size_gpu (this w)).
  change (m_object_name (this (destroyed w))) with (m_object_name (this w)).
  exists (mappable_flags (this w)).
  assert (Hflags :
    N.land (mappable_flags (this w)) VK_MEMORY_PROPERTY_HOST_VISIBLE_BIT
    = VK_MEMORY_PROPERTY_HOST_VISIBLE_BIT
    /\ N.land (mappable_flags (this w)) VK_MEMORY_PROPERTY_DEVICE_LOCAL_BIT = 0
    /\ N.land (mappable_flags (this w)) VK_MEMORY_PROPERTY_HOST_COHERENT_BIT
       = (if m_persistent_mapping (this w) then 0 else VK_MEMORY_PROPERTY_HOST_COHERENT_BIT)).
  { unfold mappable_flags. destruct (m_persistent_mapping (this w)); repeat split; reflexivity. }
  destruct (next_outcome (rhi (destroyed w))); do 2 eexists; (split; [| exact Hflags]).
  - rewrite non_null_pos. reflexivity.
  - rewrite non_null_nullptr. reflexivity.
Qed.

Lemma create_mappable_request_witness :
  exists flags buffer allocation,
    trace (rhi (after (_create nullptr) (never_created true 1024 [])))
    = trace (rhi (after _destroy (never_created true 1024 [])))
        ++ EvCreateBuffer 1024 VK_BUFFER_USAGE_INDEX_BUFFER_BIT flags nullptr buffer allocation
           :: (if non_null allocation then [EvSetName buffer "index_buffer"%string] else [])
    /\ N.land flags VK_MEMORY_PROPERTY_HOST_COHERENT_BIT = 0.
Proof.
  destruct (create_mappable_request (never_created true 1024 []))
    as (flags & buffer & allocation & Htrace & _ & _ & Hcoherent); [reflexivity |].
  exists flags, buffer, allocation. split; [exact Htrace | exact Hcoherent].
Defined.

(** X11.  With source data [_create] first asks for a staging buffer: a
    transfer source of [m_object_size_gpu] bytes in host visible, host
    coherent memory, filled from the source data.  Only if that is granted
    does it ask for the destination: a buffer of the same size, usable as
    transfer destination and index buffer, in device local memory that is
    not host visible, without initial data.  If the staging buffer is
    refused nothing else is asked. *)
Theorem create_staged_requests (indices : N) (w : World) :
  attached w = true ->
  indices <> nullptr ->
  exists staging staging_allocation rest,
    trace (rhi (after (_create indices) w))
    = trace (rhi (after _destroy w))
        ++ EvCreateBuffer (m_object_size_gpu (this w)) VK_BUFFER_USAGE_TRANSFER_SRC_BIT
             (N.lor VK_MEMORY_PROPERTY_HOST_VISIBLE_BIT VK_MEMORY_PROPERTY_HOST_COHERENT_BIT)
             indices staging staging_allocation
           :: rest
    /\ (staging_allocation = nullptr -> rest = [])
    /\ (staging_allocation <> nullptr ->
        exists usage flags buffer allocation rest',
          rest = EvCreateBuffer (m_object_size_gpu (this w)) usage flags nullptr
                   buffer allocation :: rest'
          /\ N.land usage VK_BUFFER_USAGE_TRANSFER_DST_BIT = VK_BUFFER_USAGE_TRANSFER_DST_BIT
          /\ N.land usage VK_BUFFER_USAGE_INDEX_BUFFER_BIT = VK_BUFFER_USAGE_INDEX_BUFFER_BIT
          /\ flags = VK_MEMORY_PROPERTY_DEVICE_LOCAL_BIT
          /\ N.land flags VK_MEMORY_PROPERTY_HOST_VISIBLE_BIT = 0
          /\ (allocation = nullptr -> rest' = [])).
Proof.
  intros Ha Hi. rewrite after_destroy_attached, create_trace by assumption.
  unfold create_events. apply (proj2 (N.eqb_neq _ _)) in Hi. rewrite Hi.
  change (m_object_size_gpu (this (destroyed w))) with (m_object_size_gpu (this w)).
  destruct (next_outcome (rhi (destroyed w))).
  - do 3 eexists. split; [reflexivity |]. split; [discriminate |]. intros _.
    destruct (next_outcome (take_outcome (rhi (destroyed w))));
      do 5 eexists; (split; [reflexivity |]); repeat split; try reflexivity; discriminate.
  - do 3 eexists. split; [reflexivity |]. split; [reflexivity |].
    intros H. now contradiction H.
Qed.

Lemma create_staged_requests_witness :
  exists staging staging_allocation rest,
    trace (rhi (after (_create 7) (never_created false 2048 [false])))
    = trace (rhi (after _destroy (never_created false 2048 [false])))
        ++ EvCreateBuffer 2048 VK_BUFFER_USAGE_TRANSFER_SRC_BIT
             (N.lor VK_MEMORY_PROPERTY_HOST_VISIBLE_BIT VK_MEMORY_PROPERTY_HOST_COHERENT_BIT)
             7 staging staging_allocation
           :: rest.
Proof.
  destruct (create_staged_requests 7 (never_created false 2048 [false]))
    as (staging & staging_allocation & rest & Htrace & _); [reflexivity | discriminate |].
  exists staging, staging_allocation, rest. exact Htrace.
Defined.

(** X12.  The calls of a staged [_create] that returns [true], in order, after
    those of the initial [_destroy]: staging buffer, destination buffer,
    begin of an immediate recording on the copy queue, one copy of
    [m_object_size_gpu] bytes from offset 0 of the staging buffer to offset 0
    of the destination in that recording, end of the recording, destruction
    of the staging buffer, naming of the destination.  The destination is
    the resource the object is left with. *)
Theorem create_staged_script (indices : N) (w : World) :
  attached w = true ->
  indices <> nullptr ->
  fst (_create indices w) = Ret true ->
  exists staging staging_allocation cmd_buffer,
    staging <> nullptr
    /\ staging <> m_resource (this (after (_create indices) w))
    /\ trace (rhi (after (_create indices) w))
       = trace (rhi (after _destroy w))
           ++ [EvCreateBuffer (m_object_size_gpu (this w)) VK_BUFFER_USAGE_TRANSFER_SRC_BIT
                 staging_flags indices staging staging_allocation;
               EvCreateBuffer (m_object_size_gpu (this w)) destination_usage
                 VK_MEMORY_PROPERTY_DEVICE_LOCAL_BIT nullptr
                 (m_resource (this (after (_create indices) w)))
                 (m_allocation (this (after (_create indices) w)));
               EvImmediateBegin Copy cmd_buffer;
               EvCmdCopyBuffer cmd_buffer staging
                 (m_resource (this (after (_create indices) w))) 0 0
                 (m_object_size_gpu (this w));
               EvImmediateEnd Copy;
               EvDestroyBuffer staging;
               EvSetName (m_resource (this (after (_create indices) w)))
                 (m_object_name (this w))].
Proof.
  intros Ha Hi. rewrite after_destroy_attached by assumption.
  change (m_object_size_gpu (this w)) with (m_object_size_gpu (this (destroyed w))).
  change (m_object_name (this w)) with (m_object_name (this (destroyed w))).
  create_cases indices w Ha w1; try discriminate; try congruence.
  do 3 eexists. split; [| split].
  3: { rewrite <- !app_assoc. reflexivity. }
  - discriminate.
  - intros E. injection E. lia.
Qed.

Lemma create_staged_script_witness :
  exists staging,
    staging <> m_resource (this (after (_create 7) (never_created false 2048 []))).
Proof.
  destruct (create_staged_script 7 (never_created false 2048 []))
    as (staging & staging_allocation & cmd_buffer & _ & Hne & _);
    [reflexivity | discriminate | vm_compute; reflexivity |].
  exists staging. exact Hne.
Defined.

(** *** [Map] and [Unmap] together *)

(** X13.  Without persistent mapping, [Unmap] undoes [Map]: after a granted
    [Map] followed by [Unmap] the object is as it was before, and the next
    [Map] asks the driver for a new mapping instead of returning the old
    pointer. *)
Theorem Map_Unmap_round_trip (w : World) :
  attached w = true ->
  m_is_mappable (this w) = true ->
  m_allocation (this w) <> nullptr ->
  m_persistent_mapping (this w) = false ->
  m_mapped (this w) = nullptr ->
  next_outcome (rhi w) = true ->
  exists p p',
    Map w = (Ret p, after Map w)
    /\ p <> nullptr
    /\ Unmap (after Map w) = (Ret true, after Unmap (after Map w))
    /\ this (after Unmap (after Map w)) = this w
    /\ trace (rhi (after Map (after Unmap (after Map w))))
       = trace (rhi w)
           ++ [EvMapMemory (m_allocation (this w)) p;
               EvUnmapMemory (m_allocation (this w));
               EvMapMemory (m_allocation (this w)) p'].
Proof.
  intros Ha Hm Hal Hp Hmp Ho.
  assert (Hnn : non_null (m_allocation (this w)) = true).
  { destruct (non_null (m_allocation (this w))) eqn:E; [reflexivity |].
    apply non_null_false in E. contradiction. }
  pose proof (Map_granted w Hm Ha Hnn Hmp Ho) as Hmap.
  unfold after. rewrite Hmap. cbn [snd].
  set (w1 := mkWorld _ _) in *.
  assert (Hunmap : Unmap w1 = (Ret true,
            mkWorld (set_m_mapped nullptr (this w1))
              (emit (EvUnmapMemory (m_allocation (this w1))) (rhi w1)))).
  { pose proof (attached_device w Ha) as Hd.
    apply Unmap_release; subst w1; cbn [this set_m_mapped m_is_mappable m_allocation
      m_persistent_mapping m_mapped m_rhi_device]; assumption || reflexivity. }
  rewrite Hunmap. cbn [snd].
  set (w2 := mkWorld (set_m_mapped nullptr (this w1)) _) in *.
  assert (Hback : this w2 = this w).
  { subst w2 w1. open_world w. reflexivity. }
  assert (Ha2 : attached w2 = true) by (subst w2 w1; exact Ha).
  assert (Htrace2 : trace (rhi w2)
            = trace (rhi w) ++ [EvMapMemory (m_allocation (this w)) (N.pos (next_handle (rhi w)));
                                EvUnmapMemory (m_allocation (this w))]).
  { subst w2 w1. open_world w. eval_world. rewrite <- app_assoc. reflexivity. }
  destruct (next_outcome (rhi w2)) eqn:Ho2.
  - exists (N.pos (next_handle (rhi w))), (N.pos (next_handle (rhi w2))).
    rewrite (Map_granted w2) by (rewrite ?Hback; assumption).
    repeat split; try assumption; try discriminate.
    cbn [snd rhi emit trace take_handle take_outcome]. rewrite Htrace2, Hback, <- app_assoc.
    reflexivity.
  - exists (N.pos (next_handle (rhi w))), nullptr.
    rewrite (Map_refused w2) by (rewrite ?Hback; assumption).
    repeat split; try assumption; try discriminate.
    cbn [snd rhi emit add_log trace take_handle take_outcome].
    rewrite Htrace2, Hback, <- app_assoc. reflexivity.
Qed.

Lemma Map_Unmap_round_trip_witness :
  this (after Unmap (after Map (after (_create nullptr) (never_created false 1024 []))))
  = this (after (_create nullptr) (never_created false 1024 [])).
Proof.
  destruct (Map_Unmap_round_trip (after (_create nullptr) (never_created false 1024 [])))
    as (p & p' & _ & _ & _ & H & _).
  - vm_compute. reflexivity.
  - vm_compute. reflexivity.
  - vm_compute. discriminate.
  - vm_compute. reflexivity.
  - vm_compute. reflexivity.
  - vm_compute. reflexivity.
  - exact H.
Defined.

(** X14.  With persistent mapping the mapping survives [Unmap]: once [Map]
    has returned a pointer that is not null, [Unmap] returns (with the
    result of the flush) and the next [Map] returns the same pointer again
    without calling the driver. *)
Theorem Map_survives_persistent_Unmap (w w1 : World) (p : N) :
  m_is_mappable (this w) = true ->
  m_persistent_mapping (this w) = true ->
  Map w = (Ret p, w1) ->
  p <> nullptr ->
  exists ok,
    Unmap w1 = (Ret ok, after Unmap w1)
    /\ Map (after Unmap w1) = (Ret p, after Unmap w1).
Proof.
  intros Hm Hp Hrun Hnn.
  assert (H1 : m_is_mappable (this w1) = true /\ m_persistent_mapping (this w1) = true
               /\ attached w1 = true /\ non_null (m_allocation (this w1)) = true
               /\ m_mapped (this w1) = p).
  { destruct (Map_cases w) as [Hm' | s Hm' Hs | Hm' Ha Hal Hmp | Hm' Ha Hal Hmp Ho | Hm' Ha Hal Hmp Ho].
    - congruence.
    - rewrite Hs in Hrun. discriminate Hrun.
    - rewrite Map_cached in Hrun by assumption. injection Hrun as <- <-. auto.
    - rewrite Map_refused in Hrun by assumption. injection Hrun as <- _. now contradiction Hnn.
    - rewrite Map_granted in Hrun by assumption. injection Hrun as <- <-.
      open_world w. repeat split; assumption || reflexivity. }
  destruct H1 as (Hm1 & Hp1 & Ha1 & Hal1 & Hmp1).
  pose proof (attached_device w1 Ha1) as Hd1.
  exists (next_outcome (rhi w1)). unfold after.
  rewrite Unmap_flush by assumption. cbn [snd]. split; [reflexivity |].
  set (w2 := mkWorld _ _).
  assert (Hthis : this w2 = this w1) by reflexivity.
  assert (Ha2 : attached w2 = true).
  { subst w2. unfold attached in *. destruct (next_outcome (rhi w1)); exact Ha1. }
  rewrite <- Hmp1, <- Hthis. apply Map_cached; rewrite ?Hthis; try assumption.
  rewrite Hmp1. destruct (non_null p) eqn:E; [reflexivity |].
  apply non_null_false in E. contradiction.
Qed.

Lemma Map_survives_persistent_Unmap_witness :
  exists ok,
    Unmap (after Map (after (_create nullptr) (never_created true 1024 [true; true; false])))
    = (Ret ok,
       after Unmap (after Map (after (_create nullptr) (never_created true 1024 [true; true; false]))))
    /\ Map (after Unmap (after Map (after (_create nullptr)
                                      (never_created true 1024 [true; true; false]))))
       = (Ret 4,
          after Unmap (after Map (after (_create nullptr)
                                    (never_created true 1024 [true; true; false])))).
Proof.
  apply (Map_survives_persistent_Unmap
           (after (_create nullptr) (never_created true 1024 [true; true; false]))).
  - vm_compute. reflexivity.
  - vm_compute. reflexivity.
  - vm_compute. reflexivity.
  - discriminate.
Defined.

(** X15.  [_destroy] does not reset [m_allocation].  On a mappable object
    that held a buffer, the member still has its old value after
    [_destroy], although that allocation backs no live buffer any more, and
    a following [Map] passes its assertions and hands that allocation to
    [vmaMapMemory]. *)
Theorem Map_after_destroy_uses_stale_allocation (w : World) :
  attached w = true ->
  consistent w ->
  m_is_mappable (this w) = true ->
  m_allocation (this w) <> nullptr ->
  m_allocation (this (after _destroy w)) = m_allocation (this w)
  /\ ~ live_allocation (rhi (after _destroy w)) (m_allocation (this w))
  /\ (forall s, fst (Map (after _destroy w)) <> AssertionFailed s)
  /\ exists p,
       trace (rhi (after Map (after _destroy w)))
       = trace (rhi (after _destroy w)) ++ [EvMapMemory (m_allocation (this w)) p].
Proof.
  intros Ha Hc Hm Hal. rewrite after_destroy_attached by assumption.
  assert (Hnn : non_null (m_allocation (this w)) = true).
  { destruct (non_null (m_allocation (this w))) eqn:E; [reflexivity |].
    apply non_null_false in E. contradiction. }
  apply destroyed_consistent in Hc as (_ & _ & Hdead).
  split; [reflexivity |]. split; [exact Hdead |].
  assert (Ha1 : attached (destroyed w) = true) by exact Ha.
  assert (Hm1 : m_is_mappable (this (destroyed w)) = true) by exact Hm.
  assert (Hnn1 : non_null (m_allocation (this (destroyed w))) = true) by exact Hnn.
  assert (Hmp1 : m_mapped (this (destroyed w)) = nullptr) by reflexivity.
  split; [now apply Map_passes_assertions |].
  unfold after.
  destruct (next_outcome (rhi (destroyed w))) eqn:Ho.
  - rewrite Map_granted by assumption. eexists. reflexivity.
  - rewrite Map_refused by assumption. eexists. reflexivity.
Qed.

Lemma Map_after_destroy_uses_stale_allocation_witness :
  ~ live_allocation (rhi (after _destroy (after (_create nullptr) (never_created false 1024 []))))
      (m_allocation (this (after (_create nullptr) (never_created false 1024 [])))).
Proof.
  destruct (Map_after_destroy_uses_stale_allocation
              (after (_create nullptr) (never_created false 1024 [])))
    as (_ & H & _).
  - vm_compute. reflexivity.
  - apply create_consistent; [reflexivity | apply never_created_consistent].
  - vm_compute. reflexivity.
  - vm_compute. discriminate.
  - exact H.
Defined.

(** X16.  Re-creation ends an active mapping: when [_create] is called on an
    object with an active mapping, the mapping is released right after the
    wait, before anything is created, and whatever the outcome [m_mapped] is
    null afterwards, so that a pointer obtained from [Map] before the call
    is never returned again. *)
Theorem create_ends_mapping (indices : N) (w : World) :
  attached w = true ->
  m_mapped (this w) <> nullptr ->
  m_mapped (this (after (_create indices) w)) = nullptr
  /\ exists rest,
       trace (rhi (after (_create indices) w))
       = trace (rhi w) ++ EvQueueWaitAll :: EvUnmapMemory (m_allocation (this w)) :: rest.
Proof.
  intros Ha Hmp. split; [now apply create_unmapped |].
  rewrite create_trace by assumption.
  unfold destroyed, destroy_events. cbn [rhi trace].
  destruct (non_null (m_mapped (this w))) eqn:E.
  - eexists. rewrite <- app_assoc. cbn [app]. reflexivity.
  - apply non_null_false in E. contradiction.
Qed.

Lemma create_ends_mapping_witness :
  m_mapped (this (after (_create 7) (after Map (after (_create nullptr)
                                                  (never_created false 1024 [])))))
  = nullptr.
Proof.
  destruct (create_ends_mapping 7
              (after Map (after (_create nullptr) (never_created false 1024 []))))
    as (H & _).
  - vm_compute. reflexivity.
  - vm_compute. discriminate.
  - exact H.
Defined.

(** X17.  On an attached object [Unmap] never fails silently and never
    complains when it succeeds: it always returns, a [false] result comes
    with exactly one new error message, and a [true] result leaves the log
    as it was. *)
Theorem Unmap_logs_iff_it_fails (w : World) :
  attached w = true ->
  exists ok,
    Unmap w = (Ret ok, after Unmap w)
    /\ (ok = true -> log (rhi (after Unmap w)) = log (rhi w))
    /\ (ok = false ->
        exists msg,
          log (rhi (after Unmap w)) = log (rhi w) ++ [msg]
          /\ this (after Unmap w) = this w
          /\ In msg ["Not mappable, can only be updated via staging"%string;
                     "Invalid allocation"%string;
                     "Failed to flush memory"%string]).
Proof.
  intros Ha. apply attached_device in Ha. unfold after.
  destruct (Unmap_cases w)
    as [Hm | Hm Hal | Hdn Hnull | Hm Hal Hp Hd | Hm Hal Hp Hmp Hd | Hm Hal Hp Hmp].
  - rewrite Unmap_not_mappable by assumption. exists false.
    split; [reflexivity |]. split; [discriminate |]. intros _.
    eexists. split; [reflexivity |]. split; [reflexivity |]. cbn [In]. auto.
  - rewrite Unmap_no_allocation by assumption. exists false.
    split; [reflexivity |]. split; [discriminate |]. intros _.
    eexists. split; [reflexivity |]. split; [reflexivity |]. cbn [In]. auto.
  - rewrite Hdn in Ha. discriminate Ha.
  - rewrite Unmap_flush by assumption. exists (next_outcome (rhi w)).
    split; [reflexivity |].
    destruct (next_outcome (rhi w)); (split; [intros E; try discriminate E | intros E; try discriminate E]).
    + reflexivity.
    + eexists. split; [reflexivity |]. split; [reflexivity |]. cbn [In]. auto.
  - rewrite Unmap_release by assumption. exists true.
    split; [reflexivity |]. split; [reflexivity | discriminate].
  - rewrite Unmap_nothing_mapped by assumption. exists true.
    split; [reflexivity |]. split; [reflexivity | discriminate].
Qed.

Lemma Unmap_logs_iff_it_fails_witness :
  exists ok,
    Unmap (after (_create 7) (never_created false 2048 []))
    = (Ret ok, after Unmap (after (_create 7) (never_created false 2048 [])))
    /\ (ok = true ->
        log (rhi (after Unmap (after (_create 7) (never_created false 2048 []))))
        = log (rhi (after (_create 7) (never_created false 2048 [])))).
Proof.
  destruct (Unmap_logs_iff_it_fails (after (_create 7) (never_created false 2048 [])))
    as (ok & Hrun & Htrue & _).
  - vm_compute. reflexivity.
  - exists ok. split; [exact Hrun | exact Htrue].
Defined.

(** X18.  [Map] does not handle a missing allocation the way [Unmap] does:
    on an attached mappable object whose allocation member is null, [Map]
    stops on the assertion [m_allocation != nullptr] with nothing changed
    and no call made, while [Unmap] returns [false], adds "Invalid
    allocation" to the log and changes nothing else. *)
Theorem Map_asserts_on_null_allocation (w : World) :
  attached w = true ->
  m_is_mappable (this w) = true ->
  m_allocation (this w) = nullptr ->
  Map w = (AssertionFailed "m_allocation != nullptr", w)
  /\ Unmap w = (Ret false, after Unmap w)
  /\ this (after Unmap w) = this w
  /\ log (rhi (after Unmap w)) = log (rhi w) ++ ["Invalid allocation"%string]
  /\ trace (rhi (after Unmap w)) = trace (rhi w)
  /\ buffers (rhi (after Unmap w)) = buffers (rhi w).
Proof.
  intros Ha Hm Hal. split; [now apply Map_no_allocation |].
  unfold after. rewrite Unmap_no_allocation by assumption.
  open_world w. repeat split; reflexivity.
Qed.

Lemma Map_asserts_on_null_allocation_witness :
  Map (mkWorld (set_m_is_mappable true (this (never_created false 64 [])))
         (rhi (never_created false 64 [])))
  = (AssertionFailed "m_allocation != nullptr",
     mkWorld (set_m_is_mappable true (this (never_created false 64 [])))
       (rhi (never_created false 64 []))).
Proof.
  destruct (Map_asserts_on_null_allocation
              (mkWorld (set_m_is_mappable true (this (never_created false 64 [])))
                 (rhi (never_created false 64 []))))
    as (H & _); [reflexivity | reflexivity | reflexivity | exact H].
Defined.

(** X19.  The device pointer is tested by assertions in [_create] and [Map]
    only.  On an object whose [m_rhi_device] is null, [_destroy] dereferences
    it for the queue wait and stops there, and so does [Unmap] on a mappable
    object with an allocation as soon as it has a flush or a release to
    make; a mappable [Map] stops on its first assertion.  In each case no
    call reaches the driver and nothing is changed. *)
Theorem null_device_is_dereferenced (w : World) :
  m_rhi_device (this w) = nullptr ->
  _destroy w = (NullDereference "m_rhi_device", w)
  /\ (m_is_mappable (this w) = true -> m_allocation (this w) <> nullptr ->
      m_persistent_mapping (this w) = true \/ m_mapped (this w) <> nullptr ->
      Unmap w = (NullDereference "m_rhi_device", w))
  /\ (m_is_mappable (this w) = true ->
      Map w = (AssertionFailed "m_rhi_device != nullptr", w)).
Proof.
  intros Hd. split; [now apply destroy_null_device |]. split.
  - intros Hm Hal Hcase. apply not_null_non_null in Hal.
    destruct (m_persistent_mapping (this w)) eqn:Hp.
    + now apply Unmap_flush_null_device.
    + destruct Hcase as [Hp' | Hmp]; [discriminate Hp' |].
      apply not_null_non_null in Hmp. now apply Unmap_release_null_device.
  - intros Hm. open_world w. unfold Map. run.
    rewrite non_null_nullptr. reflexivity.
Qed.

Lemma null_device_is_dereferenced_witness :
  _destroy (mkWorld (mkIndexBuffer nullptr 2 3 4 true false 1024 "index_buffer")
              (mkContext 1 {[ 2%N := 3%N ]} 4%positive [] [] []))
  = (NullDereference "m_rhi_device",
     mkWorld (mkIndexBuffer nullptr 2 3 4 true false 1024 "index_buffer")
       (mkContext 1 {[ 2%N := 3%N ]} 4%positive [] [] []))
  /\ Unmap (mkWorld (mkIndexBuffer nullptr 2 3 4 true false 1024 "index_buffer")
              (mkContext 1 {[ 2%N := 3%N ]} 4%positive [] [] []))
     = (NullDereference "m_rhi_device",
        mkWorld (mkIndexBuffer nullptr 2 3 4 true false 1024 "index_buffer")
          (mkContext 1 {[ 2%N := 3%N ]} 4%positive [] [] [])).
Proof.
  destruct (null_device_is_dereferenced
              (mkWorld (mkIndexBuffer nullptr 2 3 4 true false 1024 "index_buffer")
                 (mkContext 1 {[ 2%N := 3%N ]} 4%positive [] [] [])))
    as (H1 & H2 & _); [reflexivity |].
  split; [exact H1 |].
  apply H2; [reflexivity | discriminate | right; discriminate].
Defined.
